(** * comp_slab_models_image.py: image-grid comparison for the TRUST slab benchmark

    A shallow embedding of [plot_imagegrid] and of the script's main block,
    followed by the properties of the program that the specification states.

    Conventions of the embedding.
    - Python strings are [string]; lists are [list]; non-negative Python
      integers (indices, sizes) are [nat].
    - Pixel values are exact rationals [Q]; NaN and infinities of the
      floating-point arrays are not represented.
    - An image is the two-dimensional array that
      [np.squeeze(fits.getdata(cfile))] yields for a benchmark file: a shape
      and an indexing function.
    - Effects (printing, figure construction, files written, process exit,
      exceptions) are recorded by a small trace-and-outcome monad [M]. *)

From Stdlib Require Import String List Bool Arith Lia ZArith QArith Lqa.
Import ListNotations.
Local Open Scope nat_scope.

Local Infix "+++" := String.append (at level 60, right associativity).

(** ** Effects *)

Module Py.

(** Exceptions the modelled statements can raise. *)
Inductive exn :=
| IndexError
| ValueError
| OSError
| UnboundLocalError.

(** Arguments of a [print] call. *)
Inductive value :=
| VStr (s : string)
| VInt (n : nat)
| VList (l : list string).

End Py.

(** An image: [timage.shape = (shape0, shape1)] and [timage[r, c] = at_ r c]. *)
Record image := mk_image {
  shape0 : nat;
  shape1 : nat;
  at_ : nat -> nat -> Q
}.

(** A panel of the figure, named by its cell [(row, column)] of the grid. *)
Abbreviation axes := (nat * nat)%type (only parsing).

(** What the run leaves behind, in program order. *)
Inductive event :=
| Printed (args : list Py.value)
| Subplots                                     (* pyplot.subplots(figsize=(10,10)) *)
| Subplot (a : axes)                           (* pyplot.subplot(gs[row, col]) *)
| Imshow (a : axes) (img : image) (vmin vmax : option Q)
| SetTitle (a : axes) (title : string)
| HideAxis (a : axes)                          (* get_xaxis/get_yaxis().set_visible(False) *)
| FigText (label : string)
| Colorbar                                     (* fig.colorbar(.., cax=subplot(gs[0:3,3])) *)
| TightLayout
| Savefig (fname : string) (dpi : option nat)
| ShowFigure                                   (* pyplot.show() *)
| CloseFigure.                                 (* pyplot.close(fig) *)

Inductive outcome (A : Type) :=
| Ret (a : A)
| Exit (status : Z)
| Raise (e : Py.exn).

Arguments Ret {A} a.
Arguments Exit {A} status.
Arguments Raise {A} e.

Definition M (A : Type) : Type := (list event * outcome A)%type.

Definition ret {A} (a : A) : M A := ([], Ret a).

Definition bind {A B} (m : M A) (f : A -> M B) : M B :=
  match m with
  | (t, Ret a) => let (t', o) := f a in (t ++ t', o)
  | (t, Exit s) => (t, Exit s)
  | (t, Raise e) => (t, Raise e)
  end.

Notation "x <- m ;; k" := (bind m (fun x => k))
  (at level 61, m at next level, right associativity).
Notation "' pat <- m ;; k" := (bind m (fun x => match x with pat => k end))
  (at level 61, pat pattern, m at next level, right associativity).
Notation "m ;;; k" := (bind m (fun _ => k))
  (at level 61, right associativity).

Definition emit (e : event) : M unit := ([e], Ret tt).
Definition print (args : list Py.value) : M unit := emit (Printed args).
Definition exit {A} (status : Z) : M A := ([], Exit status).
Definition raise {A} (e : Py.exn) : M A := ([], Raise e).

(** [l[i]] for a non-negative index. *)
Definition getitem {A} (l : list A) (i : nat) : M A :=
  match nth_error l i with
  | Some x => ret x
  | None => raise Py.IndexError
  end.

(** [for i, x in enumerate(xs): s = body(i, x, s)], counting from [i]. *)
Fixpoint for_enumerate {A St} (i : nat) (xs : list A)
    (body : nat -> A -> St -> M St) (s : St) : M St :=
  match xs with
  | [] => ret s
  | x :: xs' => s' <- body i x s ;; for_enumerate (S i) xs' body s'
  end.

(** [for x in xs: s = body(x, s)]. *)
Fixpoint for_in {A St} (xs : list A) (body : A -> St -> M St) (s : St) : M St :=
  match xs with
  | [] => ret s
  | x :: xs' => s' <- body x s ;; for_in xs' body s'
  end.

(** [range(n)]. *)
Definition range (n : nat) : list nat := seq 0 n.

(** [for x in xs: body(x)]. *)
Fixpoint for_each {A} (xs : list A) (body : A -> M unit) : M unit :=
  match xs with
  | [] => ret tt
  | x :: xs' => body x ;;; for_each xs' body
  end.

(** [l[i] = v]; only used at indices inside the list. *)
Fixpoint setitem {A} (l : list A) (i : nat) (v : A) : list A :=
  match l, i with
  | [], _ => []
  | _ :: l', O => v :: l'
  | x :: l', S i' => x :: setitem l' i' v
  end.

(** ** The environment: files on disk and fresh array memory *)

Record world := {
  (** [os.path.isfile] *)
  isfile : string -> bool;
  (** [np.squeeze(fits.getdata(cfile))]; [None] when reading fails *)
  getdata : string -> option image;
  (** what [np.empty((n_files,2))] happens to hold at [row, column] *)
  uninit_minmax : nat -> nat -> Q;
  (** what [np.empty((h,w,n_files))] happens to hold at [r, c, k] *)
  uninit_cube : nat -> nat -> nat -> Q
}.

(** ** numpy operations on images and value lists *)

Definition Qltb (x y : Q) : bool := negb (Qle_bool y x).

(** All pixels, row by row. *)
Definition pixels (m : image) : list Q :=
  flat_map (fun r => map (fun c => at_ m r c) (seq 0 (shape1 m))) (seq 0 (shape0 m)).

(** [np.rot90(m, 3)]: three quarter-turns; the result has shape [(w, h)] and
    [result[i, j] = m[h-1-j, i]]. *)
Definition np_rot90_3 (m : image) : image :=
  mk_image (shape1 m) (shape0 m) (fun i j => at_ m (shape0 m - 1 - j) i).

(** [m[r0:r1, c0:c1]] with Python's clamping of slice bounds. *)
Definition slice2 (m : image) (r0 r1 c0 c1 : nat) : image :=
  mk_image (Nat.min r1 (shape0 m) - Nat.min r0 (shape0 m))
           (Nat.min c1 (shape1 m) - Nat.min c0 (shape1 m))
           (fun i j => at_ m (r0 + i) (c0 + j)).

Fixpoint list_max (x : Q) (l : list Q) : Q :=
  match l with
  | [] => x
  | y :: l' => list_max (if Qltb x y then y else x) l'
  end.

Fixpoint list_min (x : Q) (l : list Q) : Q :=
  match l with
  | [] => x
  | y :: l' => list_min (if Qltb y x then y else x) l'
  end.

(** [np.max] and [np.min]: a zero-size array has no maximum or minimum. *)
Definition np_max (l : list Q) : M Q :=
  match l with
  | [] => raise Py.ValueError
  | x :: l' => ret (list_max x l')
  end.

Definition np_min (l : list Q) : M Q :=
  match l with
  | [] => raise Py.ValueError
  | x :: l' => ret (list_min x l')
  end.

Fixpoint insert_sorted (x : Q) (l : list Q) : list Q :=
  match l with
  | [] => [x]
  | y :: l' => if Qle_bool x y then x :: l else y :: insert_sorted x l'
  end.

Definition np_sort (l : list Q) : list Q := fold_right insert_sorted [] l.

(** [np.median]: the middle of the sorted values, the mean of the two middle
    ones for an even count, and [nan] ([None]) for no values at all. *)
Definition np_median (l : list Q) : option Q :=
  let s := np_sort l in
  let n := length s in
  if n =? 0 then None
  else if Nat.even n
       then Some ((nth (n / 2 - 1) s 0 + nth (n / 2) s 0) / 2)%Q
       else Some (nth (n / 2) s 0%Q).

(** [target[:, :] = t] for a target of shape [(h, w)]: numpy broadcasts a
    dimension of size one and refuses any other mismatch. *)
Definition broadcast_to (t : image) (h w : nat) : M image :=
  if ((shape0 t =? h) || (shape0 t =? 1)) && ((shape1 t =? w) || (shape1 t =? 1))
  then ret (mk_image h w
              (fun r c => at_ t (if shape0 t =? 1 then 0 else r)
                                (if shape1 t =? 1 then 0 else c)))
  else raise Py.ValueError.

(** [gs[row, col]] for [gs = GridSpec(nrows, ncols)]. *)
Definition gridspec_getitem (nrows ncols : nat) (key : nat * nat) : M axes :=
  if (fst key <? nrows) && (snd key <? ncols) then ret key else raise Py.IndexError.

(** [divmod(a, b)] on non-negative integers. *)
Definition divmod (a b : nat) : nat * nat := (a / b, a mod b).

(** ** plot_imagegrid *)

Section PlotImagegrid.

Variable w : world.

(** Lines 29-37: keep the files that exist, with their labels and indices. *)
Definition check_files (moddisplaynames ifilenames : list string)
  : M (list string * list string * list nat) :=
  for_enumerate 0 ifilenames
    (fun i cfile '(filenames, displaynames, fileindxs) =>
       if isfile w cfile
       then name <- getitem moddisplaynames i ;;
            ret (filenames ++ [cfile], displaynames ++ [name], fileindxs ++ [i])
       else ret (filenames, displaynames, fileindxs))
    ([], [], []).

(** Lines 55-58: one axes per surviving file, on a 3 x 4 grid. *)
Definition make_axes (n_files : nat) (fileindxs : list nat) : M (list axes) :=
  for_in (range n_files)
    (fun i ax =>
       indx <- getitem fileindxs i ;;
       cell <- gridspec_getitem 3 4 (divmod indx 3) ;;
       emit (Subplot cell) ;;;
       ret (ax ++ [cell]))
    [].

(** Lines 66-67. *)
Definition rotate (displayname : string) (timage : image) : image :=
  if existsb (String.eqb displayname) ["CRT"; "SOC"]%string
  then np_rot90_3 timage
  else timage.

(** Lines 69-72. *)
Definition crop (timage : image) : image :=
  if shape0 timage =? 300 then slice2 timage 9 260 45 255
  else if shape0 timage =? 600 then slice2 timage 19 520 90 510
  else timage.

(** Line 81: the values of [timage[gindxs]]. *)
Definition good_pixels (timage : image) (tmax : Q) : list Q :=
  filter (fun p => Qltb 0 p && Qltb p tmax) (pixels timage).

(** The two arrays that the loop over the files fills. *)
Record cube := mk_cube {
  all_images : list image;          (* all_images[:, :, k] *)
  minmax_vals : list (Q * Q)        (* minmax_vals[k, 0], minmax_vals[k, 1] *)
}.

(** Lines 76-77: [np.empty] gives both arrays whatever the memory holds. *)
Definition np_empty_cube (h wd n_files : nat) : cube :=
  mk_cube (map (fun k => mk_image h wd (fun r c => uninit_cube w r c k)) (seq 0 n_files))
          (map (fun k => (uninit_minmax w k 0, uninit_minmax w k 1)) (seq 0 n_files)).

(** Lines 81-86. *)
Definition save_minmax (i : nat) (cfile : string) (timage : image)
    (minmax_vals : list (Q * Q)) : M (list (Q * Q)) :=
  tmax <- np_max (pixels timage) ;;
  let gindxs := good_pixels timage tmax in
  if 0 <? length gindxs
  then vmin <- np_min gindxs ;;
       vmax <- np_max gindxs ;;
       ret (setitem minmax_vals i (vmin, vmax))
  else print [Py.VInt i; Py.VStr cfile; Py.VStr " has no positive values"] ;;;
       ret minmax_vals.

(** Lines 61-86: the body of the loop over the surviving files.  The loop
    state is [None] until the first pass has bound the two arrays. *)
Definition read_image (displaynames : list string) (n_files : nat)
    (i : nat) (cfile : string) (st : option cube) : M (option cube) :=
  timage <- match getdata w cfile with
            | Some d => ret d
            | None => raise Py.OSError
            end ;;
  name <- getitem displaynames i ;;
  let timage := rotate name timage in
  let timage := crop timage in
  let st := if i =? 0
            then Some (np_empty_cube (shape0 timage) (shape1 timage) n_files)
            else st in
  cb <- match st with
        | Some cb => ret cb
        | None => raise Py.UnboundLocalError
        end ;;
  target <- getitem (all_images cb) i ;;
  slice <- broadcast_to timage (shape0 target) (shape1 target) ;;
  mm <- save_minmax i cfile timage (minmax_vals cb) ;;
  ret (Some (mk_cube (setitem (all_images cb) i slice) mm)).

(** Lines 89-90. *)
Definition plot_minmax (minmax_vals : list (Q * Q)) : option Q * option Q :=
  let gindxs := filter (fun row => Qltb 0 (fst row)) minmax_vals in
  (np_median (map fst gindxs), np_median (map snd gindxs)).

(** Lines 92-97. *)
Definition show_images (ax : list axes) (all_images : list image)
    (displaynames : list string) (limits : option Q * option Q) (n_files : nat)
  : M unit :=
  for_each (range n_files)
    (fun i =>
       a <- getitem ax i ;;
       img <- getitem all_images i ;;
       emit (Imshow a img (fst limits) (snd limits)) ;;;
       name <- getitem displaynames i ;;
       emit (SetTitle a name) ;;;
       emit (HideAxis a)).

(** Lines 110-118. *)
Definition save_figure (wave tau angle : string) (save_eps save_png : bool)
  : M unit :=
  let save_name := "slab_t" +++ tau +++ "_i" +++ angle +++ "_w" +++ wave
                   +++ "_image_comp" in
  if save_png
  then emit (Savefig (save_name +++ ".png") None) ;;;
       emit (Savefig (save_name +++ "_small.png") (Some 13))
  else if save_eps
  then emit (Savefig (save_name +++ ".eps") None)
  else emit ShowFigure.

(** Line 24. *)
Definition ifilenames_of (modnames : list string) (wave tau angle : string)
  : list string :=
  map (fun modname => modname +++ "_t" +++ tau +++ "_i" +++ angle
                      +++ "a000_w" +++ wave +++ ".fits") modnames.

(** Lines 61-86: the loop, and the two arrays it leaves bound. *)
Definition read_images (filenames displaynames : list string) (n_files : nat)
  : M cube :=
  st <- for_enumerate 0 filenames (read_image displaynames n_files) None ;;
  match st with
  | Some cb => ret cb
  | None => raise Py.UnboundLocalError
  end.

Definition plot_imagegrid (modnames moddisplaynames : list string)
    (wave tau angle : string) (save_eps save_png : bool) : M unit :=
  let ifilenames := ifilenames_of modnames wave tau angle in
  '(filenames, displaynames, fileindxs) <- check_files moddisplaynames ifilenames ;;
  let n_files := length filenames in
  (if n_files =? 0
   then print [Py.VStr "no files present"] ;;;
        print [Py.VList ifilenames] ;;;
        exit 0
   else ret tt) ;;;
  let fig_label := "Slab, $\tau (1 \mu m)$ = " +++ tau +++ ", $\theta$ = " +++ angle
                   +++ ", $\lambda$ = " +++ wave in
  emit Subplots ;;;
  ax <- make_axes n_files fileindxs ;;
  cb <- read_images filenames displaynames n_files ;;
  let limits := plot_minmax (minmax_vals cb) in
  show_images ax (all_images cb) displaynames limits n_files ;;;
  emit (FigText fig_label) ;;;
  emit Colorbar ;;;
  emit TightLayout ;;;
  save_figure wave tau angle save_eps save_png ;;;
  emit CloseFigure.

End PlotImagegrid.

(** ** The main block *)

(** The namespace that [parser.parse_args()] returns. *)
Module Args.
Record t := mk {
  wave : string;
  tau : string;
  angle : string;
  econs : bool;
  mscat : bool;
  nphot : bool;
  stau : bool;
  nz : bool;
  wr : bool;
  minfs : bool;
  eps : bool;
  png : bool
}.
End Args.

Definition good_angles : list string :=
  ["000"; "030"; "060"; "090"; "120"; "150"; "180"; "all"]%string.
Definition good_taus : list string :=
  ["1e-2"; "1e-1"; "1e0"; "1e1"; "all"]%string.
Definition good_waves : list string :=
  ["000.15"; "000.53"; "035.11"; "151.99"; "all"]%string.

(** Lines 157-159, 161-163 and 165-167:
    [vals = [choice]; if 'all' in vals: vals = good[0:len(good)-1]]. *)
Definition expand_all (choice : string) (good : list string) : list string :=
  let vals := [choice] in
  if existsb (String.eqb "all") vals
  then firstn (length good - 1) good
  else vals.

(** Lines 170-220: the model set, as [(imodnames, moddisplaynames)]. *)
Definition select_models (args : Args.t) : list string * list string :=
  if Args.stau args then
    let moddisplaynames :=
      ["DIRTY (Nz=400)"; "DIRTY (Nz=200)"; "DIRTY (Nz=100)"; "DIRTY (Nz=50)";
       "DIRTY (Nz=10)"; "DIRTY (Nz=6)"; "DIRTY (Nz=3)"]%string in
    let modnames :=
      ["dirty_stau_0.00250"; "dirty_stau_0.00500"; "dirty_stau_0.01000";
       "dirty_stau_0.05000"; "dirty_stau_0.10000"; "dirty_stau_0.25000";
       "dirty_stau_1.00000"]%string in
    (map (fun modname => "dirty_stau/" +++ modname +++ "_slab_eff") modnames,
     moddisplaynames)
  else if Args.nphot args then
    let moddisplaynames :=
      ["DIRTY (N=3.2e7)"; "DIRTY (N=1e7)"; "DIRTY (N=3.2e6)"; "DIRTY (N=1e6)";
       "DIRTY (N=3.2e5)"]%string in
    let modnames :=
      ["dirty_nphot_3.2e7"; "dirty_nphot_1e7"; "dirty_nphot_3.2e6";
       "dirty_nphot_1e6"; "dirty_nphot_3.2e5"]%string in
    (map (fun modname => "dirty_nphot/" +++ modname +++ "_slab_eff") modnames,
     moddisplaynames)
  else if Args.mscat args then
    let moddisplaynames := ["DIRTY (mscat=5)"; "DIRTY (mscat=1)"]%string in
    let modnames := ["dirty_mscat_5"; "dirty_mscat_1"]%string in
    (map (fun modname => "dirty_mscat/" +++ modname +++ "_slab_eff") modnames,
     moddisplaynames)
  else if Args.econs args then
    let moddisplaynames :=
      ["DIRTY (econs=0.001)"; "DIRTY (econs=0.0032)"; "DIRTY (econs=0.01)";
       "DIRTY (econs=0.032)"; "DIRTY (econs=0.1)"; "DIRTY (econs=0.32)";
       "DIRTY (econs=1.0)"]%string in
    let modnames :=
      ["dirty_econs_0.001"; "dirty_econs_0.0032"; "dirty_econs_0.01";
       "dirty_econs_0.032"; "dirty_econs_0.1"; "dirty_econs_0.32";
       "dirty_econs_1.0"]%string in
    (map (fun modname => "dirty_econs/" +++ modname +++ "_slab_eff") modnames,
     moddisplaynames)
  else if Args.nz args then
    let moddisplaynames :=
      ["SKIRT (Nz=400)"; "SKIRT (Nz=200)"; "SKIRT (Nz=100)"; "SKIRT (Nz=30)";
       "SKIRT (Nz=10)"; "SKIRT (Nz=5)"]%string in
    let modnames :=
      ["skirtnz400"; "skirtnz200"; "skirtnz100"; "skirtnz030"; "skirtnz010";
       "skirtnz005"]%string in
    (map (fun modname => "skirtnz/" +++ modname +++ "_slab_eff") modnames,
     moddisplaynames)
  else if Args.wr args then
    let moddisplaynames :=
      ["SKIRT (wr=1e8)"; "SKIRT (wr=1e7)"; "SKIRT (wr=1e6)"; "SKIRT (wr=1e5)";
       "SKIRT (wr=1e4)"; "SKIRT (wr=1e3)"]%string in
    let modnames :=
      ["skirtwr1e8"; "skirtwr1e7"; "skirtwr1e6"; "skirtwr1e5"; "skirtwr1e4";
       "skirtwr1e3"]%string in
    (map (fun modname => "skirtwr/" +++ modname +++ "_slab_eff") modnames,
     moddisplaynames)
  else if Args.minfs args then
    let moddisplaynames :=
      ["SKIRT (minfs=1)"; "SKIRT (minfs=3)"; "SKIRT (minfs=10)";
       "SKIRT (minfs=30)"; "SKIRT (minfs=100)"; "SKIRT (minfs=200)";
       "SKIRT (minfs=400)"]%string in
    let modnames :=
      ["skirtminfs001wr1e7"; "skirtminfs003wr1e7"; "skirtminfs010wr1e7";
       "skirtminfs030wr1e7"; "skirtminfs100wr1e7"; "skirtminfs200wr1e7";
       "skirtminfs400wr1e7"]%string in
    (map (fun modname => "skirtminfs/" +++ modname +++ "_slab_eff") modnames,
     moddisplaynames)
  else
    let moddisplaynames :=
      ["CRT"; "DART-ray"; "DIRTY"; "Hyperion"; "SKIRT"; "SOC"; "TRADING"]%string in
    let modnames :=
      ["crt"; "dartr"; "dirty"; "hyper"; "skirt"; "SOC"; "tradi"]%string in
    (map (fun modname => modname +++ "/" +++ modname +++ "_slab_eff") modnames,
     moddisplaynames).

(** Lines 156-226, after argument parsing. *)
Definition main (w : world) (args : Args.t) : M unit :=
  let angles := expand_all (Args.angle args) good_angles in
  let taus := expand_all (Args.tau args) good_taus in
  let waves := expand_all (Args.wave args) good_waves in
  let '(imodnames, moddisplaynames) := select_models args in
  for_each angles (fun angle =>
    for_each taus (fun tau =>
      for_each waves (fun wave =>
        plot_imagegrid w imodnames moddisplaynames wave tau angle
                       (Args.eps args) (Args.png args)))).

(** ** Vocabulary of the properties *)

(** Whether the file of original index [i] exists. *)
Definition exists_at (w : world) (ifilenames : list string) (i : nat) : bool :=
  match nth_error ifilenames i with
  | Some cfile => isfile w cfile
  | None => false
  end.

(** Original indices of the files that exist. *)
Definition existing (w : world) (ifilenames : list string) : list nat :=
  filter (exists_at w ifilenames) (seq 0 (length ifilenames)).

(** Projections of a trace: the cells given to panels, the titles set on
    panels, the shared range handed to [imshow], and the output actions. *)
Definition subplots_of (t : list event) : list axes :=
  flat_map (fun e => match e with Subplot a => [a] | _ => [] end) t.

Definition titles_of (t : list event) : list (axes * string) :=
  flat_map (fun e => match e with SetTitle a s => [(a, s)] | _ => [] end) t.

Definition ranges_of (t : list event) : list (option Q * option Q) :=
  flat_map (fun e => match e with Imshow _ _ lo hi => [(lo, hi)] | _ => [] end) t.

Definition is_output (e : event) : bool :=
  match e with
  | Savefig _ _ | ShowFigure => true
  | _ => false
  end.

Definition outputs_of (t : list event) : list event := filter is_output t.

(** An event that writes no file and opens no window. *)
Definition quiet (e : event) : Prop := is_output e = false.

Definition is_ret {A} (o : outcome A) : bool :=
  match o with Ret _ => true | _ => false end.

(** Lines 69-72 with the size that selects the window made explicit. *)
Definition crop_keyed (lead : nat) (timage : image) : image :=
  if lead =? 300 then slice2 timage 9 260 45 255
  else if lead =? 600 then slice2 timage 19 520 90 510
  else timage.

(** The reading under which the window follows the size of the array as
    loaded, before the rotation. *)
Definition crop_by_loaded_size (displayname : string) (loaded : image) : image :=
  crop_keyed (shape0 loaded) (rotate displayname loaded).

Definition is_rotated (displayname : string) : bool :=
  String.eqb displayname "CRT" || String.eqb displayname "SOC".

(** The per-image statistics as the specification describes them: the
    smallest and largest pixel strictly between zero and the image maximum,
    when there is one. *)
Definition image_minmax (timage : image) : option (Q * Q) :=
  match pixels timage with
  | [] => None
  | p :: ps =>
      match good_pixels timage (list_max p ps) with
      | [] => None
      | g :: gs => Some (list_min g gs, list_max g gs)
      end
  end.

(** The shared range as the specification describes it: medians over the
    images that have statistics; the others contribute nothing. *)
Definition valid_minmax (timages : list image) : list (Q * Q) :=
  flat_map (fun t => match image_minmax t with Some mm => [mm] | None => [] end)
           timages.

Definition median_range (rows : list (Q * Q)) : option Q * option Q :=
  (np_median (map fst rows), np_median (map snd rows)).

(** The images the loop works on: each surviving file, rotated and cropped. *)
Definition timages_of (w : world) (filenames displaynames : list string)
  : list image :=
  flat_map (fun '(cfile, name) =>
              match getdata w cfile with
              | Some d => [crop (rotate name d)]
              | None => []
              end)
           (combine filenames displaynames).

(** The row [k] of [minmax_vals] as the loop leaves it: the statistics of
    image [k] when it has some, and otherwise what the fresh array held. *)
Definition row_of (w : world) (k : nat) (timage : option image) : Q * Q :=
  match timage with
  | Some t =>
      match image_minmax t with
      | Some mm => mm
      | None => (uninit_minmax w k 0, uninit_minmax w k 1)
      end
  | None => (uninit_minmax w k 0, uninit_minmax w k 1)
  end.

(** [minmax_vals], of [n] rows, once the images [done] have been through the
    loop. *)
Definition rows (w : world) (done : list image) (n : nat) : list (Q * Q) :=
  map (fun k => row_of w k (nth_error done k)) (seq 0 n).

(** The seven mode switches, in the order the main block tests them. *)
Inductive mode := Stau | Nphot | Mscat | Econs | Nz | Wr | Minfs.

Definition priority : list mode := [Stau; Nphot; Mscat; Econs; Nz; Wr; Minfs].

Definition flag (args : Args.t) (m : mode) : bool :=
  match m with
  | Stau => Args.stau args
  | Nphot => Args.nphot args
  | Mscat => Args.mscat args
  | Econs => Args.econs args
  | Nz => Args.nz args
  | Wr => Args.wr args
  | Minfs => Args.minfs args
  end.

Definition mode_eqb (a b : mode) : bool :=
  match a, b with
  | Stau, Stau | Nphot, Nphot | Mscat, Mscat | Econs, Econs
  | Nz, Nz | Wr, Wr | Minfs, Minfs => true
  | _, _ => false
  end.

(** The command line that gives exactly the switch [m], or none of them. *)
Definition only (m : option mode) : Args.t :=
  let set x := match m with Some y => mode_eqb x y | None => false end in
  Args.mk "000.53" "1e0" "090"
          (set Econs) (set Mscat) (set Nphot) (set Stau) (set Nz) (set Wr) (set Minfs)
          false false.

(** The combinations of a sweep, in the order the nested loops reach them. *)
Definition sweep_order (args : Args.t) : list (string * string * string) :=
  flat_map (fun angle =>
    flat_map (fun tau =>
      map (fun wave => (angle, tau, wave))
          (expand_all (Args.wave args) good_waves))
      (expand_all (Args.tau args) good_taus))
    (expand_all (Args.angle args) good_angles).

(** One call of the sweep. *)
Definition render (w : world) (args : Args.t) (c : string * string * string)
  : M unit :=
  let '(angle, tau, wave) := c in
  plot_imagegrid w (fst (select_models args)) (snd (select_models args))
                 wave tau angle (Args.eps args) (Args.png args).

(** ** Sample environments *)

Module Sample.

(** The command line with no option given. *)
Definition default_args : Args.t :=
  Args.mk "000.53" "1e0" "090" false false false false false false false false false.

(** The 2 x 2 image [[a, b], [c, d]]. *)
Definition img_of (a b c d : Q) : image :=
  mk_image 2 2 (fun r k =>
    match r, k with
    | 0, 0 => a | 0, _ => b | _, 0 => c | _, _ => d
    end).

Definition img_ramp : image := img_of 0 2 3 9.
Definition img_mixed : image := img_of (-1) 4 6 8.
Definition img_flat : image := img_of 0 0 0 0.

(** A disk holding the listed files; fresh memory holds [garbage]. *)
Definition on_disk (files : list (string * image)) (garbage : Q) : world :=
  {| isfile := fun f => existsb (fun e => String.eqb f (fst e)) files;
     getdata := fun f => option_map snd (find (fun e => String.eqb f (fst e)) files);
     uninit_minmax := fun _ _ => garbage;
     uninit_cube := fun _ _ _ => 0%Q |}.

Definition no_files : world := on_disk [] 0.

(** The file of a default-set model at the default tau, angle and wavelength. *)
Definition std_file (modname : string) : string :=
  modname +++ "/" +++ modname +++ "_slab_eff_t1e0_i090a000_w000.53.fits".

(** Three of the seven default files: original indices 1, 2 and 4. *)
Definition three_of_seven : world :=
  on_disk [(std_file "dartr", img_ramp); (std_file "dirty", img_mixed);
           (std_file "skirt", img_ramp)] 0.

(** Only the model of original index 1. *)
Definition only_dartr : world := on_disk [(std_file "dartr", img_ramp)] 0.

(** One image with statistics and one without, in memory that was not zero. *)
Definition stale_memory : world :=
  on_disk [(std_file "dirty", img_ramp); (std_file "skirt", img_flat)] 5.

(** A sweep over the wavelengths of which only the first has a file. *)
Definition sweep_args : Args.t :=
  Args.mk "all" "1e0" "090" false false false false false false false false true.

Definition first_wave_only : world :=
  on_disk [("dirty/dirty_slab_eff_t1e0_i090a000_w000.15.fits"%string, img_ramp)] 0.

(** A 2 x 3 image with a zero, a negative value, the values 4 and 6, and the
    maximum 9 twice. *)
Definition img_sentinel : image :=
  mk_image 2 3 (fun r c => nth (r * 3 + c) [0; -1; 4; 6; 9; 9]%Q 0%Q).

(** A 300 x 400 image. *)
Definition img_300x400 : image := mk_image 300 400 (fun _ _ => 1%Q).

End Sample.

(** ** Further vocabulary and environments *)

(** The events that open and close the figure. *)
Definition is_lifecycle (e : event) : bool :=
  match e with
  | Subplots | CloseFigure => true
  | _ => false
  end.

Definition lifecycle (t : list event) : list event := filter is_lifecycle t.

Definition is_close (e : event) : bool :=
  match e with CloseFigure => true | _ => false end.

(** The files and windows of one combination, by the two flags. *)
Definition outputs_for (args : Args.t) (c : string * string * string)
  : list event :=
  let '(angle, tau, wave) := c in
  fst (save_figure wave tau angle (Args.eps args) (Args.png args)).

(** The loop state once the two arrays are bound: [n_files] slices, each of
    shape [(h, wd)]. *)
Definition bound (n_files h wd : nat) (st : option cube) : Prop :=
  exists cb, st = Some cb /\
             length (all_images cb) = n_files /\
             Forall (fun img => shape0 img = h /\ shape1 img = wd) (all_images cb).

(** What assignment into a slice of shape [(h, wd)] accepts. *)
Definition fits (h wd : nat) (t : image) : Prop :=
  (shape0 t = h \/ shape0 t = 1) /\ (shape1 t = wd \/ shape1 t = 1).

(** The names of the files a trace writes. *)
Definition written_files (t : list event) : list string :=
  flat_map (fun e => match e with Savefig f _ => [f] | _ => [] end) t.

(** Whether no string occurs twice. *)
Fixpoint nodupb (l : list string) : bool :=
  match l with
  | [] => true
  | x :: l' => negb (existsb (String.eqb x) l') && nodupb l'
  end.

(** A value that an axis declares and that is not the "all" entry. *)
Definition declared (good : list string) (v : string) : bool :=
  existsb (String.eqb v) good && negb (String.eqb v "all").

Module Edge.

(** A set of ten models, [m0] .. [m9], each its own label. *)
Definition ten_models : list string :=
  ["m0"; "m1"; "m2"; "m3"; "m4"; "m5"; "m6"; "m7"; "m8"; "m9"]%string.

(** Only the file of the tenth model is on disk. *)
Definition tenth_only : world :=
  Sample.on_disk [("m9_t1e0_i090a000_w000.53.fits"%string, Sample.img_ramp)] 0.

(** The file of the model of original index 2 exists and cannot be read. *)
Definition unreadable : world :=
  {| isfile := fun f => String.eqb f (Sample.std_file "dirty");
     getdata := fun _ => None;
     uninit_minmax := fun _ _ => 0%Q;
     uninit_cube := fun _ _ _ => 0%Q |}.

(** A 300 x 40 image: the window of a 300-row image starts at column 45. *)
Definition img_300x40 : image := mk_image 300 40 (fun _ _ => 1%Q).

(** A 2 x 2 image of sevens. *)
Definition img_sevens : image := Sample.img_of 7 7 7 7.

(** A 2 x 3 image beside the 2 x 2 ones. *)
Definition two_shapes : world :=
  Sample.on_disk [(Sample.std_file "dirty", Sample.img_ramp);
                  (Sample.std_file "skirt", Sample.img_sentinel)] 0.

(** A sweep over everything, raster output. *)
Definition full_sweep : Args.t :=
  Args.mk "all" "all" "all" false false false false false false false false true.

(** Every file name is on disk, with the same small image. *)
Definition all_present : world :=
  {| isfile := fun _ => true;
     getdata := fun _ => Some Sample.img_ramp;
     uninit_minmax := fun _ _ => 0%Q;
     uninit_cube := fun _ _ _ => 0%Q |}.

(** Two wavelengths have a file; the second one cannot be read. *)
Definition second_unreadable : world :=
  {| isfile := fun f =>
       String.eqb f "dirty/dirty_slab_eff_t1e0_i090a000_w000.15.fits"
       || String.eqb f "dirty/dirty_slab_eff_t1e0_i090a000_w000.53.fits";
     getdata := fun f =>
       if String.eqb f "dirty/dirty_slab_eff_t1e0_i090a000_w000.15.fits"
       then Some Sample.img_ramp else None;
     uninit_minmax := fun _ _ => 0%Q;
     uninit_cube := fun _ _ _ => 0%Q |}.

End Edge.

(** ** Laws of the effect monad *)

Section MonadLaws.

Context {A B C : Type}.

Lemma bind_ret_l (a : A) (f : A -> M B) : bind (ret a) f = f a.
Proof. unfold bind, ret. destruct (f a). reflexivity. Qed.

Lemma bind_assoc (m : M A) (f : A -> M B) (g : B -> M C) :
  bind (bind m f) g = bind m (fun a => bind (f a) g).
Proof.
  destruct m as [t [a | s | e]]; simpl; try reflexivity.
  destruct (f a) as [t1 [b | s | e]]; simpl; try reflexivity.
  destruct (g b) as [t2 o]. now rewrite app_assoc.
Qed.

(** A sequence that returns is made of two parts that return. *)
Lemma bind_Ret_inv (m : M A) (f : A -> M B) t b :
  bind m f = (t, Ret b) ->
  exists t1 a t2, m = (t1, Ret a) /\ f a = (t2, Ret b) /\ t = t1 ++ t2.
Proof.
  destruct m as [t1 [a | s | e]]; simpl; try discriminate.
  destruct (f a) as [t2 o] eqn:E. intros H. injection H as <- ->.
  now exists t1, a, t2.
Qed.

Lemma bind_fst (m : M A) (f : A -> M B) :
  fst (bind m f) =
  fst m ++ match snd m with Ret a => fst (f a) | _ => [] end.
Proof.
  destruct m as [t [a | s | e]]; simpl; try now rewrite app_nil_r.
  now destruct (f a).
Qed.

Lemma bind_snd (m : M A) (f : A -> M B) :
  snd (bind m f) =
  match snd m with Ret a => snd (f a) | Exit s => Exit s | Raise e => Raise e end.
Proof.
  destruct m as [t [a | s | e]]; simpl; try reflexivity.
  now destruct (f a).
Qed.

End MonadLaws.

(** ** Argument expansion and model selection *)

Lemma eqb_all_sym (choice : string) :
  String.eqb "all" choice = String.eqb choice "all".
Proof. apply String.eqb_sym. Qed.

(** C7. On each of the three axes the value "all" expands to the declared
    list of that axis without the "all" entry, order kept (seven angles, four
    optical depths, four wavelengths), and any other value stays the
    one-element list of that value. *)
Theorem expand_all_axes (choice : string) :
  let others good := filter (fun v => negb (String.eqb v "all")) good in
  (expand_all choice good_angles =
     if String.eqb choice "all" then others good_angles else [choice]) /\
  (expand_all choice good_taus =
     if String.eqb choice "all" then others good_taus else [choice]) /\
  (expand_all choice good_waves =
     if String.eqb choice "all" then others good_waves else [choice]) /\
  others good_angles = ["000"; "030"; "060"; "090"; "120"; "150"; "180"]%string /\
  others good_taus = ["1e-2"; "1e-1"; "1e0"; "1e1"]%string /\
  others good_waves = ["000.15"; "000.53"; "035.11"; "151.99"]%string.
Proof.
  unfold expand_all. cbn [existsb]. rewrite orb_false_r, eqb_all_sym.
  destruct (String.eqb choice "all"); repeat split; reflexivity.
Qed.

(** Every model set of the main block pairs each path prefix with a label
    and has at most seven members. *)
Lemma select_models_paired (args : Args.t) :
  length (fst (select_models args)) = length (snd (select_models args)) /\
  length (fst (select_models args)) <= 7.
Proof.
  unfold select_models.
  destruct (Args.stau args), (Args.nphot args), (Args.mscat args),
    (Args.econs args), (Args.nz args), (Args.wr args), (Args.minfs args);
    cbn; lia.
Qed.

(** The sizes of the eight model sets. *)
Lemma select_models_sizes :
  map (fun m => length (fst (select_models (only m))))
      (None :: map Some priority) = [7; 7; 5; 2; 7; 6; 6; 7].
Proof. reflexivity. Qed.

(** C9. Whatever combination of the seven mode switches is given, the model
    set is the one of the first switch that is set in the order stau, nphot,
    mscat, econs, nz, wr, minfs, and the default set of seven codes when none
    is; the eight sets are pairwise different (each is named here by its first
    label), and selection is a total function (it cannot raise). *)
Theorem select_models_priority (args : Args.t) :
  select_models args = select_models (only (find (flag args) priority)) /\
  NoDup (map (fun m => select_models (only m)) (None :: map Some priority)) /\
  map (fun m => hd EmptyString (snd (select_models (only m))))
      (None :: map Some priority)
  = ["CRT"; "DIRTY (Nz=400)"; "DIRTY (N=3.2e7)"; "DIRTY (mscat=5)";
     "DIRTY (econs=0.001)"; "SKIRT (Nz=400)"; "SKIRT (wr=1e8)";
     "SKIRT (minfs=1)"]%string /\
  snd (select_models (only None))
  = ["CRT"; "DART-ray"; "DIRTY"; "Hyperion"; "SKIRT"; "SOC"; "TRADING"]%string.
Proof.
  split; [|split; [|split; reflexivity]].
  - unfold select_models at 1. unfold priority, find, flag.
    destruct (Args.stau args); [reflexivity|].
    destruct (Args.nphot args); [reflexivity|].
    destruct (Args.mscat args); [reflexivity|].
    destruct (Args.econs args); [reflexivity|].
    destruct (Args.nz args); [reflexivity|].
    destruct (Args.wr args); [reflexivity|].
    destruct (Args.minfs args); reflexivity.
  - cbn. repeat constructor; cbn; intuition discriminate.
Qed.

(** ** Rotation and cropping *)

Lemma rotate_is_rotated (displayname : string) (timage : image) :
  rotate displayname timage =
  if is_rotated displayname then np_rot90_3 timage else timage.
Proof.
  unfold rotate, is_rotated. cbn [existsb]. now rewrite orb_false_r.
Qed.

Lemma crop_crop_keyed (timage : image) :
  crop timage = crop_keyed (shape0 timage) timage.
Proof. reflexivity. Qed.

(** The two windows: rows 9..259 and columns 45..254 of a 300-row image, rows
    19..519 and columns 90..509 of a 600-row image. *)
Lemma crop_window_300 (timage : image) :
  shape0 timage = 300 ->
  shape0 (crop timage) = 251 /\
  shape1 (crop timage) = Nat.min 255 (shape1 timage) - Nat.min 45 (shape1 timage) /\
  forall i j, at_ (crop timage) i j = at_ timage (9 + i) (45 + j).
Proof. intros H. unfold crop. rewrite H. cbn. rewrite H. now cbn. Qed.

Lemma crop_window_600 (timage : image) :
  shape0 timage = 600 ->
  shape0 (crop timage) = 501 /\
  shape1 (crop timage) = Nat.min 510 (shape1 timage) - Nat.min 90 (shape1 timage) /\
  forall i j, at_ (crop timage) i j = at_ timage (19 + i) (90 + j).
Proof. intros H. unfold crop. rewrite H. cbn. rewrite H. now cbn. Qed.

(** C3, as the code has it. The window is selected by the leading dimension
    of the array after the conditional rotation: the second dimension of the
    loaded array for the labels CRT and SOC, its leading dimension for every
    other label. *)
Theorem crop_selected_after_rotation (displayname : string) (loaded : image) :
  crop (rotate displayname loaded) =
  crop_keyed (if is_rotated displayname then shape1 loaded else shape0 loaded)
             (rotate displayname loaded).
Proof.
  rewrite crop_crop_keyed, rotate_is_rotated.
  now destruct (is_rotated displayname).
Qed.

(** C10. An image whose leading dimension after the conditional rotation is
    neither 300 nor 600 leaves the cropping step as it entered it: the same
    array, nothing cut and nothing raised. *)
Theorem crop_other_sizes (displayname : string) (loaded : image) :
  shape0 (rotate displayname loaded) <> 300 ->
  shape0 (rotate displayname loaded) <> 600 ->
  crop (rotate displayname loaded) = rotate displayname loaded.
Proof.
  intros H3 H6. unfold crop.
  apply Nat.eqb_neq in H3, H6. now rewrite H3, H6.
Qed.

(** ** Running sequences and loops *)

Lemma bind_run {A B} (t : list event) (a : A) (f : A -> M B) :
  bind (t, Ret a) f = (t ++ fst (f a), snd (f a)).
Proof. simpl. now destruct (f a). Qed.

Lemma bind_emit {B} (e : event) (f : unit -> M B) :
  bind (emit e) f = (e :: fst (f tt), snd (f tt)).
Proof. unfold emit. now rewrite bind_run. Qed.

Lemma getitem_nth_error {A} (l : list A) (i : nat) (x : A) :
  nth_error l i = Some x -> getitem l i = ret x.
Proof. unfold getitem. now intros ->. Qed.

Lemma skipn_nth_error {A} (l : list A) (i : nat) (x : A) :
  nth_error l i = Some x -> skipn i l = x :: skipn (S i) l.
Proof.
  revert i. induction l as [|y l IH]; intros [|i] H; try discriminate.
  - now injection H as ->.
  - cbn [skipn]. now apply IH.
Qed.

Lemma nth_error_middle {A} (pre : list A) (x : A) (post : list A) :
  nth_error (pre ++ x :: post) (length pre) = Some x.
Proof. rewrite nth_error_app2, Nat.sub_diag by lia. reflexivity. Qed.

Lemma for_each_app {A} (xs ys : list A) (body : A -> M unit) :
  for_each (xs ++ ys) body = (for_each xs body ;;; for_each ys body).
Proof.
  induction xs as [|x xs IH]; simpl for_each.
  - now rewrite bind_ret_l.
  - now rewrite IH, bind_assoc.
Qed.

(** A property of every event carries over sequences and loops. *)
Section TraceInvariant.

Variable P : event -> Prop.

Lemma Forall_bind {A B} (m : M A) (f : A -> M B) :
  Forall P (fst m) -> (forall a, Forall P (fst (f a))) ->
  Forall P (fst (bind m f)).
Proof.
  intros Hm Hf. rewrite bind_fst. apply Forall_app. split; [assumption|].
  destruct (snd m); auto.
Qed.

Lemma Forall_for_enumerate {A St} (body : nat -> A -> St -> M St) xs :
  (forall i x s, Forall P (fst (body i x s))) ->
  forall i s, Forall P (fst (for_enumerate i xs body s)).
Proof.
  intros Hb. induction xs as [|x xs IH]; intros i s; simpl.
  - constructor.
  - apply Forall_bind; auto.
Qed.

Lemma Forall_for_in {A St} (body : A -> St -> M St) xs :
  (forall x s, Forall P (fst (body x s))) ->
  forall s, Forall P (fst (for_in xs body s)).
Proof.
  intros Hb. induction xs as [|x xs IH]; intros s; simpl.
  - constructor.
  - apply Forall_bind; auto.
Qed.

Lemma Forall_for_each {A} (body : A -> M unit) xs :
  (forall x, Forall P (fst (body x))) -> Forall P (fst (for_each xs body)).
Proof.
  intros Hb. induction xs as [|x xs IH]; simpl.
  - constructor.
  - apply Forall_bind; auto.
Qed.

Lemma Forall_getitem {A} (l : list A) i : Forall P (fst (getitem l i)).
Proof. unfold getitem. destruct (nth_error l i); constructor. Qed.

Lemma Forall_np_max l : Forall P (fst (np_max l)).
Proof. destruct l; constructor. Qed.

Lemma Forall_np_min l : Forall P (fst (np_min l)).
Proof. destruct l; constructor. Qed.

Lemma Forall_emit e : P e -> Forall P (fst (emit e)).
Proof. intros H. repeat constructor. exact H. Qed.

End TraceInvariant.

(** ** The existence filter *)

Section Filter.

Variable w : world.

Lemma check_files_loop (moddisplaynames xs pre : list string)
      (filenames displaynames : list string) (fileindxs : list nat) :
  length (pre ++ xs) <= length moddisplaynames ->
  for_enumerate (length pre) xs
    (fun i cfile '(filenames, displaynames, fileindxs) =>
       if isfile w cfile
       then name <- getitem moddisplaynames i ;;
            ret (filenames ++ [cfile], displaynames ++ [name], fileindxs ++ [i])
       else ret (filenames, displaynames, fileindxs))
    (filenames, displaynames, fileindxs)
  = let kept := filter (exists_at w (pre ++ xs)) (seq (length pre) (length xs)) in
    ret (filenames ++ map (fun i => nth i (pre ++ xs) EmptyString) kept,
         displaynames ++ map (fun i => nth i moddisplaynames EmptyString) kept,
         fileindxs ++ kept).
Proof.
  revert pre filenames displaynames fileindxs.
  induction xs as [|x xs IH]; intros pre fs ds ks Hlen; cbv zeta.
  - simpl. now rewrite !app_nil_r.
  - cbn [for_enumerate length seq filter].
    assert (Hx : exists_at w (pre ++ x :: xs) (length pre) = isfile w x)
      by (unfold exists_at; now rewrite nth_error_middle).
    rewrite Hx. clear Hx.
    specialize (IH (pre ++ [x])). cbv zeta in IH.
    rewrite <- app_assoc in IH. cbn [app] in IH.
    replace (length (pre ++ [x])) with (S (length pre)) in IH
      by (rewrite length_app; simpl; lia).
    destruct (isfile w x) eqn:Ex.
    + destruct (nth_error moddisplaynames (length pre)) as [name|] eqn:En.
      2:{ apply nth_error_None in En. rewrite length_app in Hlen. simpl in Hlen. lia. }
      rewrite (getitem_nth_error _ _ _ En), !bind_ret_l, IH by exact Hlen.
      cbn [map]. rewrite <- !app_assoc. cbn [app].
      rewrite (nth_middle pre xs x EmptyString).
      now rewrite (nth_error_nth _ _ EmptyString En).
    + rewrite bind_ret_l. now apply IH.
Qed.

(** The filter in closed form. *)
Lemma check_files_existing (moddisplaynames ifilenames : list string) :
  length ifilenames <= length moddisplaynames ->
  check_files w moddisplaynames ifilenames =
  ret (map (fun i => nth i ifilenames EmptyString) (existing w ifilenames),
       map (fun i => nth i moddisplaynames EmptyString) (existing w ifilenames),
       existing w ifilenames).
Proof.
  intros Hlen. unfold check_files.
  exact (check_files_loop moddisplaynames ifilenames [] [] [] [] Hlen).
Qed.

Lemma existing_spec (ifilenames : list string) (i : nat) :
  In i (existing w ifilenames) <->
  exists cfile, nth_error ifilenames i = Some cfile /\ isfile w cfile = true.
Proof.
  unfold existing, exists_at. rewrite filter_In, in_seq. split.
  - intros [_ H]. destruct (nth_error ifilenames i) as [c|]; [eauto|discriminate].
  - intros (c & Hc & Hf). rewrite Hc. split; [|exact Hf].
    assert (i < length ifilenames) by (apply nth_error_Some; congruence). lia.
Qed.

(** With no file on disk the filter keeps nothing, labels or no labels. *)
Lemma check_files_none (moddisplaynames ifilenames : list string) :
  existsb (isfile w) ifilenames = false ->
  check_files w moddisplaynames ifilenames = ret ([], [], []).
Proof.
  unfold check_files. generalize 0.
  induction ifilenames as [|x xs IH]; intros i H; simpl in *.
  - reflexivity.
  - apply orb_false_iff in H as [-> H]. rewrite bind_ret_l. now apply IH.
Qed.

End Filter.

(** C6. When every model has a label, the existence filter returns without
    printing or raising, keeps exactly the indices of the files that exist,
    and keeps file names, labels and indices in step: position k of the three
    lists holds the name, the label and the original index of one model. *)
Theorem check_files_lockstep (w : world) (moddisplaynames ifilenames : list string) :
  length ifilenames <= length moddisplaynames ->
  exists filenames displaynames fileindxs,
    check_files w moddisplaynames ifilenames
      = ([], Ret (filenames, displaynames, fileindxs)) /\
    length filenames = length fileindxs /\
    length displaynames = length fileindxs /\
    (forall i, In i fileindxs <->
               exists cfile, nth_error ifilenames i = Some cfile /\
                             isfile w cfile = true) /\
    (forall k i, nth_error fileindxs k = Some i ->
                 nth_error filenames k = nth_error ifilenames i /\
                 nth_error displaynames k = nth_error moddisplaynames i).
Proof.
  intros Hlen.
  exists (map (fun i => nth i ifilenames EmptyString) (existing w ifilenames)),
         (map (fun i => nth i moddisplaynames EmptyString) (existing w ifilenames)),
         (existing w ifilenames).
  split; [now apply check_files_existing|].
  split; [apply length_map|]. split; [apply length_map|].
  split; [apply existing_spec|].
  intros k i Hk.
  assert (Hi : i < length ifilenames).
  { apply nth_error_In, existing_spec in Hk as (c & Hc & _).
    apply nth_error_Some. congruence. }
  rewrite !nth_error_map, Hk. cbn [option_map].
  split; symmetry; apply nth_error_nth'; lia.
Qed.

Lemma check_files_lockstep_witness :
  exists filenames displaynames fileindxs,
    check_files Sample.three_of_seven
                (snd (select_models Sample.default_args))
                (ifilenames_of (fst (select_models Sample.default_args))
                               "000.53" "1e0" "090")
      = ([], Ret (filenames, displaynames, fileindxs)) /\
    length filenames = length fileindxs /\
    length displaynames = length fileindxs /\
    (forall i, In i fileindxs <->
               exists cfile,
                 nth_error (ifilenames_of (fst (select_models Sample.default_args))
                                          "000.53" "1e0" "090") i = Some cfile /\
                 isfile Sample.three_of_seven cfile = true) /\
    (forall k i, nth_error fileindxs k = Some i ->
                 nth_error filenames k
                 = nth_error (ifilenames_of (fst (select_models Sample.default_args))
                                            "000.53" "1e0" "090") i /\
                 nth_error displaynames k
                 = nth_error (snd (select_models Sample.default_args)) i).
Proof.
  apply (check_files_lockstep Sample.three_of_seven). vm_compute. lia.
Defined.

(** The sample disk keeps the models of original indices 1, 2 and 4. *)
Example check_files_three_of_seven :
  check_files Sample.three_of_seven
              (snd (select_models Sample.default_args))
              (ifilenames_of (fst (select_models Sample.default_args))
                             "000.53" "1e0" "090")
  = ret (["dartr/dartr_slab_eff_t1e0_i090a000_w000.53.fits";
          "dirty/dirty_slab_eff_t1e0_i090a000_w000.53.fits";
          "skirt/skirt_slab_eff_t1e0_i090a000_w000.53.fits"]%string,
         ["DART-ray"; "DIRTY"; "SKIRT"]%string, [1; 2; 4]).
Proof. reflexivity. Qed.

(** ** The grid of panels *)

Lemma gridspec_cell (indx : nat) :
  indx < 9 -> gridspec_getitem 3 4 (divmod indx 3) = ret (indx / 3, indx mod 3).
Proof.
  intros H. unfold gridspec_getitem, divmod. cbn [fst snd].
  assert (Hr : (indx / 3 <? 3) = true)
    by (apply Nat.ltb_lt, Nat.Div0.div_lt_upper_bound; lia).
  assert (Hc : (indx mod 3 <? 4) = true).
  { apply Nat.ltb_lt. pose proof (Nat.mod_upper_bound indx 3). lia. }
  now rewrite Hr, Hc.
Qed.

(** Past the third row of the grid there is no cell. *)
Lemma gridspec_no_cell (indx : nat) :
  9 <= indx -> gridspec_getitem 3 4 (divmod indx 3) = raise Py.IndexError.
Proof.
  intros H. unfold gridspec_getitem, divmod. cbn [fst snd].
  assert (Hr : (indx / 3 <? 3) = false).
  { apply Nat.ltb_ge. change 3 with (9 / 3) at 1. now apply Nat.Div0.div_le_mono. }
  now rewrite Hr.
Qed.

Lemma make_axes_loop (fileindxs : list nat) :
  Forall (fun indx => indx < 9) fileindxs ->
  forall (m k : nat) (ax : list axes),
  k + m <= length fileindxs ->
  for_in (seq k m)
    (fun i ax =>
       indx <- getitem fileindxs i ;;
       cell <- gridspec_getitem 3 4 (divmod indx 3) ;;
       emit (Subplot cell) ;;;
       ret (ax ++ [cell]))
    ax
  = (map (fun indx => Subplot (indx / 3, indx mod 3)) (firstn m (skipn k fileindxs)),
     Ret (ax ++ map (fun indx => (indx / 3, indx mod 3))
                    (firstn m (skipn k fileindxs)))).
Proof.
  intros Hall. induction m as [|m IH]; intros k ax Hk.
  - cbn [seq for_in firstn map]. now rewrite app_nil_r.
  - cbn [seq for_in].
    destruct (nth_error fileindxs k) as [x|] eqn:Ek.
    2:{ apply nth_error_None in Ek. lia. }
    assert (Hx : x < 9).
    { rewrite Forall_forall in Hall. eapply Hall, nth_error_In, Ek. }
    rewrite (getitem_nth_error _ _ _ Ek), (bind_ret_l x).
    rewrite (gridspec_cell x Hx), (bind_ret_l (x / 3, x mod 3)), bind_emit.
    cbn [fst snd ret]. rewrite bind_run.
    rewrite (IH (S k) (ax ++ [(x / 3, x mod 3)])) by lia.
    rewrite (skipn_nth_error _ _ _ Ek).
    cbn [fst snd app firstn map]. now rewrite <- app_assoc.
Qed.

Lemma make_axes_cells (fileindxs : list nat) :
  Forall (fun indx => indx < 9) fileindxs ->
  make_axes (length fileindxs) fileindxs
  = (map (fun indx => Subplot (indx / 3, indx mod 3)) fileindxs,
     Ret (map (fun indx => (indx / 3, indx mod 3)) fileindxs)).
Proof.
  intros H. unfold make_axes, range.
  rewrite (make_axes_loop fileindxs H (length fileindxs) 0 []) by lia.
  cbn [skipn app]. now rewrite firstn_all.
Qed.

(** ** What each stage can leave in the trace *)

Section StageTraces.

Variable w : world.
Variable P : event -> Prop.

Lemma save_minmax_trace i cfile timage mm :
  (forall args, P (Printed args)) ->
  Forall P (fst (save_minmax i cfile timage mm)).
Proof.
  intros HP. unfold save_minmax.
  apply Forall_bind; [apply Forall_np_max|]. intros tmax.
  destruct (0 <? length (good_pixels timage tmax)).
  - apply Forall_bind; [apply Forall_np_min|]. intros vmin.
    apply Forall_bind; [apply Forall_np_max|]. intros vmax. constructor.
  - apply Forall_bind; [apply Forall_emit, HP|]. intros _. constructor.
Qed.

Lemma broadcast_to_trace t h wd : Forall P (fst (broadcast_to t h wd)).
Proof. unfold broadcast_to. destruct (_ && _); constructor. Qed.

Lemma read_image_trace displaynames n_files i cfile st :
  (forall args, P (Printed args)) ->
  Forall P (fst (read_image w displaynames n_files i cfile st)).
Proof.
  intros HP. unfold read_image.
  apply Forall_bind; [destruct (getdata w cfile); constructor|]. intros d.
  apply Forall_bind; [apply Forall_getitem|]. intros name.
  apply Forall_bind; [destruct (if i =? 0 then _ else st); constructor|]. intros cb.
  apply Forall_bind; [apply Forall_getitem|]. intros target.
  apply Forall_bind; [apply broadcast_to_trace|]. intros slice.
  apply Forall_bind; [now apply save_minmax_trace|]. intros mm. constructor.
Qed.

Lemma read_images_trace filenames displaynames n_files :
  (forall args, P (Printed args)) ->
  Forall P (fst (read_images w filenames displaynames n_files)).
Proof.
  intros HP. unfold read_images. apply Forall_bind.
  - apply Forall_for_enumerate. intros. now apply read_image_trace.
  - intros [cb|]; constructor.
Qed.

Lemma show_images_trace ax imgs displaynames limits n_files :
  (forall a img lo hi, P (Imshow a img lo hi)) ->
  (forall a s, P (SetTitle a s)) ->
  (forall a, P (HideAxis a)) ->
  Forall P (fst (show_images ax imgs displaynames limits n_files)).
Proof.
  intros HI HT HH. unfold show_images. apply Forall_for_each. intros i.
  apply Forall_bind; [apply Forall_getitem|]. intros a.
  apply Forall_bind; [apply Forall_getitem|]. intros img.
  apply Forall_bind; [apply Forall_emit, HI|]. intros _.
  apply Forall_bind; [apply Forall_getitem|]. intros name.
  apply Forall_bind; [apply Forall_emit, HT|]. intros _.
  apply Forall_emit, HH.
Qed.

Lemma save_figure_trace wave tau angle save_eps save_png :
  (forall f d, P (Savefig f d)) -> P ShowFigure ->
  Forall P (fst (save_figure wave tau angle save_eps save_png)).
Proof.
  intros HS HW. unfold save_figure. destruct save_png; [|destruct save_eps].
  - apply Forall_bind; [apply Forall_emit, HS|]. intros _. apply Forall_emit, HS.
  - apply Forall_emit, HS.
  - apply Forall_emit, HW.
Qed.

End StageTraces.

(** ** Projections of a trace *)

Lemma flat_map_nil_Forall {A B} (f : A -> list B) (l : list A) :
  Forall (fun x => f x = []) l -> flat_map f l = [].
Proof. induction 1 as [|x l Hx _ IH]; simpl; [reflexivity|now rewrite Hx, IH]. Qed.

Lemma filter_nil_Forall {A} (f : A -> bool) (l : list A) :
  Forall (fun x => f x = false) l -> filter f l = [].
Proof. induction 1 as [|x l Hx _ IH]; simpl; [reflexivity|now rewrite Hx, IH]. Qed.

Lemma subplots_of_app t1 t2 : subplots_of (t1 ++ t2) = subplots_of t1 ++ subplots_of t2.
Proof. apply flat_map_app. Qed.

Lemma titles_of_app t1 t2 : titles_of (t1 ++ t2) = titles_of t1 ++ titles_of t2.
Proof. apply flat_map_app. Qed.

Lemma outputs_of_app t1 t2 : outputs_of (t1 ++ t2) = outputs_of t1 ++ outputs_of t2.
Proof. apply filter_app. Qed.

Lemma subplots_of_Subplot {A} (f : A -> axes) (l : list A) :
  subplots_of (map (fun i => Subplot (f i)) l) = map f l.
Proof. induction l as [|c l IH]; simpl; [reflexivity|now rewrite IH]. Qed.

Lemma titles_of_Subplot {A} (f : A -> axes) (l : list A) :
  titles_of (map (fun i => Subplot (f i)) l) = [].
Proof. induction l as [|c l IH]; simpl; [reflexivity|exact IH]. Qed.

Lemma outputs_of_Subplot {A} (f : A -> axes) (l : list A) :
  outputs_of (map (fun i => Subplot (f i)) l) = [].
Proof. induction l as [|c l IH]; simpl; [reflexivity|exact IH]. Qed.

(** The titles of a completed pass over the panels. *)
Lemma show_images_titles (ax : list axes) (imgs : list image)
      (displaynames : list string) (limits : option Q * option Q) (m : nat) :
  forall k t,
  for_each (seq k m)
    (fun i =>
       a <- getitem ax i ;;
       img <- getitem imgs i ;;
       emit (Imshow a img (fst limits) (snd limits)) ;;;
       name <- getitem displaynames i ;;
       emit (SetTitle a name) ;;;
       emit (HideAxis a))
  = (t, Ret tt) ->
  titles_of t = map (fun i => (nth i ax (0, 0), nth i displaynames EmptyString))
                    (seq k m).
Proof.
  induction m as [|m IH]; intros k t H.
  - cbn in H. injection H as <-. reflexivity.
  - cbn [seq for_each] in H.
    apply bind_Ret_inv in H as (t1 & [] & t2 & H1 & H2 & ->).
    rewrite titles_of_app, (IH _ _ H2). cbn [seq map]. f_equal.
    unfold getitem in H1.
    destruct (nth_error ax k) as [a|] eqn:Ea; [|discriminate].
    rewrite (bind_ret_l a) in H1.
    destruct (nth_error imgs k) as [img|] eqn:Ei; [|discriminate].
    rewrite (bind_ret_l img), bind_emit in H1.
    destruct (nth_error displaynames k) as [name|] eqn:En; [|discriminate].
    rewrite (bind_ret_l name), bind_emit in H1. cbn in H1.
    injection H1 as <-. cbn.
    now rewrite (nth_error_nth _ _ _ Ea), (nth_error_nth _ _ _ En).
Qed.

Lemma map_nth_pair_seq {A B} (f : nat -> A) (g : nat -> B) (da : A) (db : B)
      (l : list nat) :
  map (fun k => (nth k (map f l) da, nth k (map g l) db)) (seq 0 (length l))
  = map (fun i => (f i, g i)) l.
Proof.
  induction l as [|x l IH]; [reflexivity|].
  cbn [length seq map nth]. f_equal. rewrite <- seq_shift, map_map. exact IH.
Qed.

Lemma existing_bound (w : world) (ifilenames : list string) (n : nat) :
  length ifilenames <= n -> Forall (fun indx => indx < n) (existing w ifilenames).
Proof.
  intros H. apply Forall_forall. intros i Hi.
  apply filter_In in Hi as [Hi _]. apply in_seq in Hi. lia.
Qed.

(** The run from the figure on, once the filter has kept at least one file. *)
Lemma plot_imagegrid_unfold (w : world) modnames moddisplaynames wave tau angle
      save_eps save_png :
  let ifilenames := ifilenames_of modnames wave tau angle in
  let fileindxs := existing w ifilenames in
  let filenames := map (fun i => nth i ifilenames EmptyString) fileindxs in
  let displaynames := map (fun i => nth i moddisplaynames EmptyString) fileindxs in
  length modnames <= length moddisplaynames ->
  fileindxs <> [] ->
  plot_imagegrid w modnames moddisplaynames wave tau angle save_eps save_png
  = (emit Subplots ;;;
     ax <- make_axes (length filenames) fileindxs ;;
     cb <- read_images w filenames displaynames (length filenames) ;;
     show_images ax (all_images cb) displaynames (plot_minmax (minmax_vals cb))
                 (length filenames) ;;;
     emit (FigText ("Slab, $\tau (1 \mu m)$ = " +++ tau +++ ", $\theta$ = "
                    +++ angle +++ ", $\lambda$ = " +++ wave)) ;;;
     emit Colorbar ;;;
     emit TightLayout ;;;
     save_figure wave tau angle save_eps save_png ;;;
     emit CloseFigure).
Proof.
  intros ifilenames fileindxs filenames displaynames Hlen Hne.
  unfold plot_imagegrid. fold ifilenames.
  rewrite check_files_existing
    by (unfold ifilenames, ifilenames_of; now rewrite length_map).
  fold fileindxs filenames displaynames.
  rewrite (bind_ret_l (filenames, displaynames, fileindxs)).
  cbv beta iota.
  assert (E : (length filenames =? 0) = false).
  { unfold filenames. rewrite length_map. apply Nat.eqb_neq.
    destruct fileindxs; [congruence|discriminate]. }
  rewrite E. now rewrite (bind_ret_l tt).
Qed.

(** With labels for every model and no file on disk, the run is the
    diagnostic and the exit. *)
Lemma plot_imagegrid_no_files (w : world) modnames moddisplaynames wave tau angle
      save_eps save_png :
  existsb (isfile w) (ifilenames_of modnames wave tau angle) = false ->
  plot_imagegrid w modnames moddisplaynames wave tau angle save_eps save_png
  = ([Printed [Py.VStr "no files present"];
      Printed [Py.VList (ifilenames_of modnames wave tau angle)]],
     Exit 0%Z).
Proof.
  intros H. unfold plot_imagegrid.
  rewrite (check_files_none _ _ _ H). reflexivity.
Qed.

Lemma existing_nil (w : world) (ifilenames : list string) :
  existing w ifilenames = [] -> existsb (isfile w) ifilenames = false.
Proof.
  intros H. destruct (existsb (isfile w) ifilenames) eqn:E; [|reflexivity].
  apply existsb_exists in E as (c & Hin & Hc).
  apply In_nth_error in Hin as [i Hi].
  assert (Hi' : In i (existing w ifilenames))
    by (apply existing_spec; eauto).
  rewrite H in Hi'. destruct Hi'.
Qed.

(** The default command line on an empty disk. *)
Example main_no_files :
  main Sample.no_files Sample.default_args
  = ([Printed [Py.VStr "no files present"];
      Printed [Py.VList
                 ["crt/crt_slab_eff_t1e0_i090a000_w000.53.fits";
                  "dartr/dartr_slab_eff_t1e0_i090a000_w000.53.fits";
                  "dirty/dirty_slab_eff_t1e0_i090a000_w000.53.fits";
                  "hyper/hyper_slab_eff_t1e0_i090a000_w000.53.fits";
                  "skirt/skirt_slab_eff_t1e0_i090a000_w000.53.fits";
                  "SOC/SOC_slab_eff_t1e0_i090a000_w000.53.fits";
                  "tradi/tradi_slab_eff_t1e0_i090a000_w000.53.fits"]%string]],
     Exit 0%Z).
Proof. reflexivity. Qed.

(** Two models of a set of at most nine never share a cell. *)
Lemma cell_injective (i j : nat) :
  i / 3 = j / 3 -> i mod 3 = j mod 3 -> i = j.
Proof.
  intros Hd Hm. rewrite (Nat.div_mod_eq i 3), (Nat.div_mod_eq j 3). now rewrite Hd, Hm.
Qed.

(** C1, as the code has it. For a model set of at most nine members, each
    with a label, the panel of the model whose original index is i is
    created at grid row (i div 3) and grid column (i mod 3), and a completed
    render titles that panel with the model's label; the existence filter
    returns without raising or printing, models whose files are missing get
    no panel, their cells stay empty, and the panels of the others do not
    move. *)
Theorem panels_at_original_cells (w : world) (modnames moddisplaynames : list string)
        (wave tau angle : string) (save_eps save_png : bool) :
  length modnames <= length moddisplaynames ->
  length modnames <= 9 ->
  let ifilenames := ifilenames_of modnames wave tau angle in
  let run := plot_imagegrid w modnames moddisplaynames wave tau angle
                            save_eps save_png in
  (exists filenames displaynames,
      check_files w moddisplaynames ifilenames
      = ([], Ret (filenames, displaynames, existing w ifilenames))) /\
  subplots_of (fst run)
    = map (fun i => (i / 3, i mod 3)) (existing w ifilenames) /\
  (snd run = Ret tt ->
   titles_of (fst run)
     = map (fun i => ((i / 3, i mod 3), nth i moddisplaynames EmptyString))
           (existing w ifilenames)).
Proof.
  intros Hlab Hnine ifilenames run.
  split.
  { do 2 eexists. apply check_files_existing.
    unfold ifilenames, ifilenames_of. now rewrite length_map. }
  destruct (existing w ifilenames) as [|i0 rest] eqn:Eex.
  - subst run. fold ifilenames.
    rewrite plot_imagegrid_no_files by (now apply existing_nil).
    split; [reflexivity|discriminate].
  - assert (Hne : existing w ifilenames <> []) by (rewrite Eex; discriminate).
    assert (Hb : Forall (fun indx => indx < 9) (existing w ifilenames)).
    { apply existing_bound. unfold ifilenames, ifilenames_of.
      now rewrite length_map. }
    rewrite <- Eex. subst run.
    rewrite plot_imagegrid_unfold by assumption. fold ifilenames.
    set (fileindxs := existing w ifilenames) in *.
    set (filenames := map (fun i => nth i ifilenames EmptyString) fileindxs).
    set (displaynames := map (fun i => nth i moddisplaynames EmptyString) fileindxs).
    assert (Hn : length filenames = length fileindxs)
      by (unfold filenames; apply length_map).
    replace (make_axes (length filenames) fileindxs)
      with (make_axes (length fileindxs) fileindxs) by (now rewrite Hn).
    rewrite bind_emit, (make_axes_cells _ Hb), bind_run.
    set (ax := map (fun indx => (indx / 3, indx mod 3)) fileindxs).
    cbn [fst snd].
    match goal with |- context [snd ?m = Ret tt] => remember m as tail eqn:Htail end.
    split.
    + cbn [subplots_of flat_map app].
      change (flat_map _ ?t) with (subplots_of t).
      rewrite subplots_of_app, subplots_of_Subplot.
      replace (subplots_of (fst tail)) with (@nil (nat * nat));
        [now rewrite app_nil_r|].
      symmetry. apply flat_map_nil_Forall. subst tail.
      apply Forall_bind; [now apply read_images_trace|]. intros cb.
      apply Forall_bind; [now apply show_images_trace|]. intros _.
      repeat (apply Forall_bind; [now apply Forall_emit|]; intros _).
      apply Forall_bind; [now apply save_figure_trace|]. intros _.
      now apply Forall_emit.
    + intros Hret. destruct tail as [t o]. cbn [fst snd] in *. subst o.
      symmetry in Htail.
      cbn [titles_of flat_map app].
      change (flat_map _ ?t) with (titles_of t).
      rewrite titles_of_app, titles_of_Subplot. cbn [app].
      apply bind_Ret_inv in Htail as (t1 & cb & t2 & H1 & H2 & ->).
      apply bind_Ret_inv in H2 as (t3 & [] & t4 & H3 & H4 & ->).
      rewrite !titles_of_app.
      replace (titles_of t1) with (@nil (nat * nat * string)).
      2:{ symmetry. apply flat_map_nil_Forall.
          change t1 with (fst (t1, @Ret cube cb)). rewrite <- H1.
          now apply read_images_trace. }
      replace (titles_of t4) with (@nil (nat * nat * string)).
      2:{ symmetry. apply flat_map_nil_Forall.
          change t4 with (fst (t4, Ret tt)). rewrite <- H4.
          repeat (apply Forall_bind; [now apply Forall_emit|]; intros _).
          apply Forall_bind; [now apply save_figure_trace|]. intros _.
          now apply Forall_emit. }
      rewrite app_nil_r. cbn [app].
      unfold show_images in H3. rewrite (show_images_titles _ _ _ _ _ _ _ H3).
      unfold filenames, ax, displaynames. rewrite length_map.
      apply map_nth_pair_seq.
Qed.

Lemma panels_at_original_cells_witness :
  let ifilenames := ifilenames_of (fst (select_models Sample.default_args))
                                  "000.53" "1e0" "090" in
  let run := plot_imagegrid Sample.three_of_seven
               (fst (select_models Sample.default_args))
               (snd (select_models Sample.default_args))
               "000.53" "1e0" "090" false false in
  (exists filenames displaynames,
      check_files Sample.three_of_seven
                  (snd (select_models Sample.default_args)) ifilenames
      = ([], Ret (filenames, displaynames,
                  existing Sample.three_of_seven ifilenames))) /\
  subplots_of (fst run)
    = map (fun i => (i / 3, i mod 3)) (existing Sample.three_of_seven ifilenames) /\
  (snd run = Ret tt ->
   titles_of (fst run)
     = map (fun i => ((i / 3, i mod 3),
                      nth i (snd (select_models Sample.default_args)) EmptyString))
           (existing Sample.three_of_seven ifilenames)).
Proof.
  apply (panels_at_original_cells Sample.three_of_seven); vm_compute; lia.
Defined.

(** Three files of seven: three panels, at the cells of the original indices
    1, 2 and 4, each under its own label, and the render completes. *)
Example three_of_seven_panels :
  let run := plot_imagegrid Sample.three_of_seven
               (fst (select_models Sample.default_args))
               (snd (select_models Sample.default_args))
               "000.53" "1e0" "090" false false in
  snd run = Ret tt /\
  subplots_of (fst run) = [(0, 1); (0, 2); (1, 1)] /\
  titles_of (fst run)
    = [((0, 1), "DART-ray"); ((0, 2), "DIRTY"); ((1, 1), "SKIRT")]%string.
Proof. vm_compute. repeat split. Qed.

(** C1, as the specification words it, fails: with only the model of original
    index 1 on disk the panel is created at row 0, column 1, not at row
    1 mod 3 = 1, column 1 div 3 = 0. *)
Lemma panels_not_at_mod_div :
  subplots_of
    (fst (plot_imagegrid Sample.only_dartr
            (fst (select_models Sample.default_args))
            (snd (select_models Sample.default_args))
            "000.53" "1e0" "090" false false))
  <> map (fun i => (i mod 3, i / 3))
         (existing Sample.only_dartr
            (ifilenames_of (fst (select_models Sample.default_args))
                           "000.53" "1e0" "090")).
Proof. vm_compute. discriminate. Qed.

(** ** Output *)

Section Quiet.

Lemma outputs_skip {A B} (m : M A) (f : A -> M B) (b : B) :
  Forall quiet (fst m) ->
  snd (bind m f) = Ret b ->
  exists a, snd (f a) = Ret b /\
            outputs_of (fst (bind m f)) = outputs_of (fst (f a)).
Proof.
  intros Hq H. rewrite bind_snd in H. rewrite bind_fst, outputs_of_app.
  destruct (snd m) as [a | s | e]; try discriminate.
  exists a. split; [exact H|].
  unfold outputs_of at 1. now rewrite (filter_nil_Forall _ _ Hq).
Qed.

Lemma check_files_quiet (w : world) moddisplaynames ifilenames :
  Forall quiet (fst (check_files w moddisplaynames ifilenames)).
Proof.
  unfold check_files. apply Forall_for_enumerate.
  intros i cfile [[fs ds] ks]. destruct (isfile w cfile); [|constructor].
  apply Forall_bind; [apply Forall_getitem|]. intros name. constructor.
Qed.

Lemma make_axes_quiet n_files fileindxs :
  Forall quiet (fst (make_axes n_files fileindxs)).
Proof.
  unfold make_axes. apply Forall_for_in. intros i ax.
  apply Forall_bind; [apply Forall_getitem|]. intros indx.
  apply Forall_bind; [unfold gridspec_getitem; destruct (_ && _); constructor|].
  intros cell. apply Forall_bind; [now apply Forall_emit|]. intros _. constructor.
Qed.

(** Everything before the output stage is silent about files and windows. *)
Lemma plot_imagegrid_outputs (w : world) modnames moddisplaynames wave tau angle
      save_eps save_png :
  snd (plot_imagegrid w modnames moddisplaynames wave tau angle save_eps save_png)
    = Ret tt ->
  outputs_of
    (fst (plot_imagegrid w modnames moddisplaynames wave tau angle save_eps save_png))
  = outputs_of (fst (save_figure wave tau angle save_eps save_png)).
Proof.
  unfold plot_imagegrid. intros H.
  apply outputs_skip in H as ([[fs ds] ks] & H & ->); [|apply check_files_quiet].
  apply outputs_skip in H as ([] & H & ->).
  2:{ destruct (length fs =? 0); [|constructor].
      apply Forall_bind; [now apply Forall_emit|]. intros _.
      apply Forall_bind; [now apply Forall_emit|]. intros _. constructor. }
  apply outputs_skip in H as ([] & H & ->); [|now apply Forall_emit].
  apply outputs_skip in H as (ax & H & ->); [|apply make_axes_quiet].
  apply outputs_skip in H as (cb & H & ->); [|now apply read_images_trace].
  apply outputs_skip in H as ([] & H & ->); [|now apply show_images_trace].
  apply outputs_skip in H as ([] & H & ->); [|now apply Forall_emit].
  apply outputs_skip in H as ([] & H & ->); [|now apply Forall_emit].
  apply outputs_skip in H as ([] & H & ->); [|now apply Forall_emit].
  rewrite bind_fst, outputs_of_app.
  destruct (snd (save_figure wave tau angle save_eps save_png)); cbn;
    now rewrite app_nil_r.
Qed.

End Quiet.

(** C8. A completed render writes exactly the two raster files
    [slab_t<tau>_i<angle>_w<wave>_image_comp.png] and [..._comp_small.png]
    when the raster flag is set, whether or not the vector flag is; exactly
    the one file [..._comp.eps] when only the vector flag is set; and shows the
    figure, writing nothing, when neither is. *)
Theorem outputs_by_flags (w : world) (modnames moddisplaynames : list string)
        (wave tau angle : string) (save_eps save_png : bool) :
  snd (plot_imagegrid w modnames moddisplaynames wave tau angle save_eps save_png)
    = Ret tt ->
  outputs_of
    (fst (plot_imagegrid w modnames moddisplaynames wave tau angle save_eps save_png))
  = let save_name := "slab_t" +++ tau +++ "_i" +++ angle +++ "_w" +++ wave
                     +++ "_image_comp" in
    if save_png
    then [Savefig (save_name +++ ".png") None;
          Savefig (save_name +++ "_small.png") (Some 13)]
    else if save_eps
    then [Savefig (save_name +++ ".eps") None]
    else [ShowFigure].
Proof.
  intros H. rewrite (plot_imagegrid_outputs _ _ _ _ _ _ _ _ H).
  unfold save_figure. now destruct save_png, save_eps.
Qed.

Lemma outputs_by_flags_witness :
  outputs_of
    (fst (plot_imagegrid Sample.three_of_seven
            (fst (select_models Sample.default_args))
            (snd (select_models Sample.default_args))
            "000.53" "1e0" "090" true true))
  = [Savefig "slab_t1e0_i090_w000.53_image_comp.png" None;
     Savefig "slab_t1e0_i090_w000.53_image_comp_small.png" (Some 13)].
Proof.
  apply (outputs_by_flags Sample.three_of_seven
           (fst (select_models Sample.default_args))
           (snd (select_models Sample.default_args))
           "000.53" "1e0" "090" true true).
  vm_compute. reflexivity.
Defined.

(** The other two settings of the flags on the same disk. *)
Example outputs_vector_only :
  outputs_of
    (fst (plot_imagegrid Sample.three_of_seven
            (fst (select_models Sample.default_args))
            (snd (select_models Sample.default_args))
            "000.53" "1e0" "090" true false))
  = [Savefig "slab_t1e0_i090_w000.53_image_comp.eps" None].
Proof. reflexivity. Qed.

Example outputs_no_flag :
  outputs_of
    (fst (plot_imagegrid Sample.three_of_seven
            (fst (select_models Sample.default_args))
            (snd (select_models Sample.default_args))
            "000.53" "1e0" "090" false false))
  = [ShowFigure].
Proof. reflexivity. Qed.

(** ** The sweep *)

Lemma for_each_ext {A} (xs : list A) (f g : A -> M unit) :
  (forall x, f x = g x) -> for_each xs f = for_each xs g.
Proof.
  intros H. induction xs as [|x xs IH]; simpl; [reflexivity|now rewrite H, IH].
Qed.

Lemma for_each_map {A B} (g : A -> B) (xs : list A) (body : B -> M unit) :
  for_each (map g xs) body = for_each xs (fun x => body (g x)).
Proof. induction xs as [|x xs IH]; simpl; [reflexivity|now rewrite IH]. Qed.

Lemma for_each_flat_map {A B} (g : A -> list B) (xs : list A) (body : B -> M unit) :
  for_each (flat_map g xs) body = for_each xs (fun x => for_each (g x) body).
Proof.
  induction xs as [|x xs IH]; simpl; [reflexivity|].
  now rewrite for_each_app, IH.
Qed.

(** The nested loops visit the combinations in [sweep_order]. *)
Lemma main_sweep (w : world) (args : Args.t) :
  main w args = for_each (sweep_order args) (render w args).
Proof.
  unfold main, sweep_order. destruct (select_models args) as [imodnames labels] eqn:E.
  rewrite for_each_flat_map. apply for_each_ext. intros angle.
  rewrite for_each_flat_map. apply for_each_ext. intros tau.
  rewrite for_each_map. apply for_each_ext. intros wave.
  unfold render. now rewrite E.
Qed.

Lemma for_each_all_ret {A} (xs : list A) (body : A -> M unit) :
  forallb (fun x => is_ret (snd (body x))) xs = true ->
  for_each xs body = (flat_map (fun x => fst (body x)) xs, Ret tt).
Proof.
  induction xs as [|x xs IH]; intros H; simpl in *; [reflexivity|].
  apply andb_true_iff in H as [Hx Hxs]. rewrite (IH Hxs).
  destruct (body x) as [t [[] | s | e]]; try discriminate. reflexivity.
Qed.

(** C4. When a sweep reaches a combination for which none of the constructed
    file names exists, the program prints the diagnostic and the list of
    names and exits with status 0; the trace ends there, so no later
    combination is attempted. *)
Theorem exit_on_zero_files (w : world) (args : Args.t)
        (pre post : list (string * string * string)) (angle tau wave : string) :
  sweep_order args = pre ++ (angle, tau, wave) :: post ->
  forallb (fun c => is_ret (snd (render w args c))) pre = true ->
  existsb (isfile w)
          (ifilenames_of (fst (select_models args)) wave tau angle) = false ->
  main w args
  = (flat_map (fun c => fst (render w args c)) pre
     ++ [Printed [Py.VStr "no files present"];
         Printed [Py.VList (ifilenames_of (fst (select_models args)) wave tau angle)]],
     Exit 0%Z).
Proof.
  intros Hsplit Hpre Hnone.
  rewrite main_sweep, Hsplit, for_each_app, (for_each_all_ret _ _ Hpre), bind_run.
  cbn [for_each]. unfold render at 2 4.
  rewrite (plot_imagegrid_no_files _ _ _ _ _ _ _ _ Hnone). reflexivity.
Qed.

Lemma exit_on_zero_files_witness :
  main Sample.first_wave_only Sample.sweep_args
  = (flat_map (fun c => fst (render Sample.first_wave_only Sample.sweep_args c))
              [("090", "1e0", "000.15")]%string
     ++ [Printed [Py.VStr "no files present"];
         Printed [Py.VList (ifilenames_of (fst (select_models Sample.sweep_args))
                                          "000.53" "1e0" "090")]],
     Exit 0%Z).
Proof.
  apply (exit_on_zero_files Sample.first_wave_only Sample.sweep_args
           [("090", "1e0", "000.15")]%string
           [("090", "1e0", "035.11"); ("090", "1e0", "151.99")]%string
           "090" "1e0" "000.53"); reflexivity.
Defined.

(** The sweep of the sample has four wavelengths; the first renders and
    writes its two files, the second finds nothing, and the last two leave no
    event. *)
Example sweep_stops_at_second_wavelength :
  sweep_order Sample.sweep_args
  = [("090", "1e0", "000.15"); ("090", "1e0", "000.53");
     ("090", "1e0", "035.11"); ("090", "1e0", "151.99")]%string /\
  outputs_of (fst (main Sample.first_wave_only Sample.sweep_args))
  = [Savefig "slab_t1e0_i090_w000.15_image_comp.png" None;
     Savefig "slab_t1e0_i090_w000.15_image_comp_small.png" (Some 13)] /\
  snd (main Sample.first_wave_only Sample.sweep_args) = Exit 0%Z.
Proof. vm_compute. repeat split. Qed.

(** ** Minimum and maximum of pixel values *)

Lemma Qltb_lt (x y : Q) : Qltb x y = true <-> (x < y)%Q.
Proof.
  unfold Qltb. rewrite negb_true_iff. split.
  - intros H. apply Qnot_le_lt. intros Hle. apply Qle_bool_iff in Hle. congruence.
  - intros H. destruct (Qle_bool y x) eqn:E; [|reflexivity].
    apply Qle_bool_iff in E. lra.
Qed.

Lemma Qltb_ge (x y : Q) : Qltb x y = false <-> (y <= x)%Q.
Proof.
  unfold Qltb. rewrite negb_false_iff. apply Qle_bool_iff.
Qed.

Lemma list_max_spec (l : list Q) :
  forall x, In (list_max x l) (x :: l) /\
            forall p, In p (x :: l) -> (p <= list_max x l)%Q.
Proof.
  induction l as [|y l IH]; intros x; cbn [list_max].
  - split; [now left|]. intros p [<-|[]]. lra.
  - destruct (IH (if Qltb x y then y else x)) as [Hin Hle].
    destruct (Qltb x y) eqn:E.
    + apply Qltb_lt in E. split.
      * destruct Hin as [<-|Hin]; [right; now left|right; now right].
      * intros p [<-|[<-|Hp]].
        -- specialize (Hle y (or_introl eq_refl)). lra.
        -- apply Hle. now left.
        -- apply Hle. now right.
    + apply Qltb_ge in E. split.
      * destruct Hin as [<-|Hin]; [now left|right; now right].
      * intros p [<-|[<-|Hp]].
        -- apply Hle. now left.
        -- specialize (Hle x (or_introl eq_refl)). lra.
        -- apply Hle. now right.
Qed.

Lemma list_min_spec (l : list Q) :
  forall x, In (list_min x l) (x :: l) /\
            forall p, In p (x :: l) -> (list_min x l <= p)%Q.
Proof.
  induction l as [|y l IH]; intros x; cbn [list_min].
  - split; [now left|]. intros p [<-|[]]. lra.
  - destruct (IH (if Qltb y x then y else x)) as [Hin Hle].
    destruct (Qltb y x) eqn:E.
    + apply Qltb_lt in E. split.
      * destruct Hin as [<-|Hin]; [right; now left|right; now right].
      * intros p [<-|[<-|Hp]].
        -- specialize (Hle y (or_introl eq_refl)). lra.
        -- apply Hle. now left.
        -- apply Hle. now right.
    + apply Qltb_ge in E. split.
      * destruct Hin as [<-|Hin]; [now left|right; now right].
      * intros p [<-|[<-|Hp]].
        -- apply Hle. now left.
        -- specialize (Hle x (or_introl eq_refl)). lra.
        -- apply Hle. now right.
Qed.

Lemma good_pixels_spec (timage : image) (tmax p : Q) :
  In p (good_pixels timage tmax) <->
  In p (pixels timage) /\ (0 < p)%Q /\ (p < tmax)%Q.
Proof.
  unfold good_pixels. rewrite filter_In, andb_true_iff, !Qltb_lt. tauto.
Qed.

(** Lines 81-86 in one step, for an image that has pixels. *)
Lemma save_minmax_run (i : nat) (cfile : string) (timage : image)
      (minmax_vals : list (Q * Q)) (p : Q) (ps : list Q) :
  pixels timage = p :: ps ->
  save_minmax i cfile timage minmax_vals
  = match good_pixels timage (list_max p ps) with
    | [] => ([Printed [Py.VInt i; Py.VStr cfile; Py.VStr " has no positive values"]],
             Ret minmax_vals)
    | g :: gs => ([], Ret (setitem minmax_vals i (list_min g gs, list_max g gs)))
    end.
Proof.
  intros Hp. unfold save_minmax. rewrite Hp. cbn [np_max].
  rewrite (bind_ret_l (list_max p ps)).
  destruct (good_pixels timage (list_max p ps)) as [|g gs]; reflexivity.
Qed.

(** C5. For an image that has pixels, the statistics are taken over exactly
    the pixels strictly above zero and strictly below the image's own
    maximum: the stored minimum and maximum are two such pixels and bound all
    such pixels, so no zero, negative or maximum-valued pixel takes part; when
    no pixel qualifies the row is left alone and the diagnostic is printed. *)
Theorem save_minmax_strictly_inside (i : nat) (cfile : string) (timage : image)
        (minmax_vals : list (Q * Q)) :
  pixels timage <> [] ->
  exists tmax,
    In tmax (pixels timage) /\
    (forall p, In p (pixels timage) -> (p <= tmax)%Q) /\
    let inside p := In p (pixels timage) /\ (0 < p)%Q /\ (p < tmax)%Q in
    ((exists vmin vmax,
         inside vmin /\ inside vmax /\
         (forall p, inside p -> (vmin <= p)%Q /\ (p <= vmax)%Q) /\
         save_minmax i cfile timage minmax_vals
           = ([], Ret (setitem minmax_vals i (vmin, vmax))))
     \/
     ((forall p, ~ inside p) /\
      save_minmax i cfile timage minmax_vals
        = ([Printed [Py.VInt i; Py.VStr cfile; Py.VStr " has no positive values"]],
           Ret minmax_vals))).
Proof.
  intros Hne. destruct (pixels timage) as [|p ps] eqn:Hp; [congruence|].
  exists (list_max p ps). destruct (list_max_spec ps p) as [Hin Hmax].
  split; [exact Hin|]. split; [exact Hmax|]. intros inside.
  rewrite (save_minmax_run _ _ _ _ _ _ Hp).
  assert (Hgood : forall q, In q (good_pixels timage (list_max p ps)) <-> inside q).
  { intros q. unfold inside. rewrite <- Hp. apply good_pixels_spec. }
  destruct (good_pixels timage (list_max p ps)) as [|g gs].
  - right. split; [|reflexivity]. intros q Hq. now apply Hgood in Hq.
  - left. exists (list_min g gs), (list_max g gs).
    destruct (list_min_spec gs g) as [Hmin_in Hmin].
    destruct (list_max_spec gs g) as [Hmax_in Hmax'].
    repeat split; try (now apply Hgood); try reflexivity.
    + apply Hmin. now apply Hgood.
    + apply Hmax'. now apply Hgood.
Qed.

Lemma save_minmax_strictly_inside_witness :
  exists tmax,
    In tmax (pixels Sample.img_sentinel) /\
    (forall p, In p (pixels Sample.img_sentinel) -> (p <= tmax)%Q) /\
    let inside p := In p (pixels Sample.img_sentinel) /\ (0 < p)%Q /\ (p < tmax)%Q in
    ((exists vmin vmax,
         inside vmin /\ inside vmax /\
         (forall p, inside p -> (vmin <= p)%Q /\ (p <= vmax)%Q) /\
         save_minmax 0 "slab.fits" Sample.img_sentinel [(0, 0)%Q]
           = ([], Ret (setitem [(0, 0)%Q] 0 (vmin, vmax))))
     \/
     ((forall p, ~ inside p) /\
      save_minmax 0 "slab.fits" Sample.img_sentinel [(0, 0)%Q]
        = ([Printed [Py.VInt 0; Py.VStr "slab.fits";
                     Py.VStr " has no positive values"]],
           Ret [(0, 0)%Q]))).
Proof.
  apply (save_minmax_strictly_inside 0 "slab.fits" Sample.img_sentinel [(0, 0)%Q]).
  vm_compute. discriminate.
Defined.

(** Zero, the negative value and both maximum pixels stay out: the row is
    (4, 6). An image of equal pixels has nothing inside and keeps its row. *)
Example save_minmax_sentinel :
  save_minmax 0 "slab.fits" Sample.img_sentinel [(0, 0)%Q] = ([], Ret [(4, 6)%Q]).
Proof. reflexivity. Qed.

Example save_minmax_flat :
  save_minmax 1 "flat.fits" Sample.img_flat [(4, 6)%Q; (5, 5)%Q]
  = ([Printed [Py.VInt 1; Py.VStr "flat.fits"; Py.VStr " has no positive values"]],
     Ret [(4, 6)%Q; (5, 5)%Q]).
Proof. reflexivity. Qed.

(** ** The shared range *)

Section SharedRange.

Variable w : world.
Variable displaynames : list string.
Variable n_files : nat.

Lemma save_minmax_image_minmax i cfile timage mm t mm' :
  save_minmax i cfile timage mm = (t, Ret mm') ->
  mm' = match image_minmax timage with
        | Some row => setitem mm i row
        | None => mm
        end.
Proof.
  unfold image_minmax. destruct (pixels timage) as [|p ps] eqn:Hp.
  - unfold save_minmax. rewrite Hp. discriminate.
  - rewrite (save_minmax_run _ _ _ _ _ _ Hp).
    destruct (good_pixels timage (list_max p ps)); intros H; now injection H.
Qed.

Lemma setitem_map_seq {A} (f : nat -> A) (i : nat) (v : A) (n k0 : nat) :
  setitem (map f (seq k0 n)) i v
  = map (fun k => if k =? k0 + i then v else f k) (seq k0 n).
Proof.
  revert i k0. induction n as [|n IH]; intros i k0; [reflexivity|].
  cbn [seq map]. destruct i as [|i]; cbn [setitem].
  - rewrite Nat.add_0_r, Nat.eqb_refl. f_equal.
    apply map_ext_in. intros k Hk. apply in_seq in Hk.
    destruct (k =? k0) eqn:E; [apply Nat.eqb_eq in E; lia|reflexivity].
  - assert (E : (k0 =? k0 + S i) = false) by (apply Nat.eqb_neq; lia).
    rewrite E. f_equal. rewrite IH. apply map_ext. intros k.
    now replace (S k0 + i) with (k0 + S i) by lia.
Qed.

Lemma rows_snoc (done : list image) (timage : image) :
  match image_minmax timage with
  | Some row => setitem (rows w done n_files) (length done) row
  | None => rows w done n_files
  end
  = rows w (done ++ [timage]) n_files.
Proof.
  unfold rows.
  assert (H : forall k,
             row_of w k (nth_error (done ++ [timage]) k)
             = if k =? length done
               then match image_minmax timage with
                    | Some row => row
                    | None => row_of w k (nth_error done k)
                    end
               else row_of w k (nth_error done k)).
  { intros k. destruct (k =? length done) eqn:E.
    - apply Nat.eqb_eq in E. subst k. rewrite nth_error_middle.
      assert (Hn : nth_error done (length done) = None)
        by (apply nth_error_None; lia).
      rewrite Hn. reflexivity.
    - apply Nat.eqb_neq in E.
      destruct (Nat.lt_ge_cases k (length done)) as [Hk|Hk].
      + now rewrite nth_error_app1.
      + assert (H1 : nth_error (done ++ [timage]) k = None)
          by (apply nth_error_None; rewrite length_app; simpl; lia).
        assert (H2 : nth_error done k = None) by (apply nth_error_None; lia).
        now rewrite H1, H2. }
  destruct (image_minmax timage) as [row|] eqn:Em.
  - rewrite setitem_map_seq. apply map_ext. intros k. rewrite H. reflexivity.
  - apply map_ext. intros k. rewrite H. now destruct (k =? length done).
Qed.

(** One pass of the loop adds the row of its image. *)
Lemma read_image_rows (i : nat) (cfile : string) (st : option cube)
      (done : list image) t st1 :
  i = length done ->
  (i <> 0 -> exists cb, st = Some cb /\ minmax_vals cb = rows w done n_files) ->
  read_image w displaynames n_files i cfile st = (t, Ret st1) ->
  exists d name cb1,
    getdata w cfile = Some d /\
    nth_error displaynames i = Some name /\
    st1 = Some cb1 /\
    minmax_vals cb1 = rows w (done ++ [crop (rotate name d)]) n_files.
Proof.
  intros Hi Hst H. unfold read_image in H.
  destruct (getdata w cfile) as [d|]; [|discriminate].
  rewrite (bind_ret_l d) in H. unfold getitem at 1 in H.
  destruct (nth_error displaynames i) as [name|]; [|discriminate].
  rewrite (bind_ret_l name) in H. cbv zeta in H.
  set (timage := crop (rotate name d)) in *.
  assert (Hcb : exists cb,
             (if i =? 0
              then Some (np_empty_cube w (shape0 timage) (shape1 timage) n_files)
              else st) = Some cb /\
             minmax_vals cb = rows w done n_files).
  { destruct (i =? 0) eqn:E.
    - apply Nat.eqb_eq in E. eexists. split; [reflexivity|].
      destruct done; [|subst; discriminate].
      cbn [np_empty_cube minmax_vals]. unfold rows. apply map_ext.
      intros k. now destruct k. 
    - apply Nat.eqb_neq in E. exact (Hst E). }
  destruct Hcb as (cb & E & Hrows).
  rewrite E, (bind_ret_l cb) in H.
  apply bind_Ret_inv in H as (t1 & target & t2 & _ & H & _).
  apply bind_Ret_inv in H as (t3 & slice & t4 & _ & H & _).
  apply bind_Ret_inv in H as (t5 & mm & t6 & Hmm & H & _).
  injection H as _ <-.
  exists d, name. eexists. repeat split.
  cbn [minmax_vals]. rewrite (save_minmax_image_minmax _ _ _ _ _ _ Hmm), Hrows, Hi.
  apply rows_snoc.
Qed.

Lemma read_loop_rows (xs : list string) :
  forall (i : nat) (st : option cube) (done : list image) t st',
  i = length done ->
  (i <> 0 -> exists cb, st = Some cb /\ minmax_vals cb = rows w done n_files) ->
  xs <> [] ->
  for_enumerate i xs (read_image w displaynames n_files) st = (t, Ret st') ->
  exists cb',
    st' = Some cb' /\
    minmax_vals cb'
      = rows w (done ++ timages_of w xs (skipn i displaynames)) n_files /\
    length (timages_of w xs (skipn i displaynames)) = length xs.
Proof.
  induction xs as [|x xs IH]; intros i st done t st' Hi Hst Hne H; [congruence|].
  cbn [for_enumerate] in H.
  apply bind_Ret_inv in H as (t1 & st1 & t2 & H1 & H2 & _).
  destruct (read_image_rows _ _ _ _ _ _ Hi Hst H1)
    as (d & name & cb1 & Hd & Hname & -> & Hrows).
  rewrite (skipn_nth_error _ _ _ Hname).
  unfold timages_of. cbn [combine flat_map]. rewrite Hd. cbn [app length].
  destruct xs as [|x' xs].
  - cbn in H2. injection H2 as _ <-. exists cb1. cbn [combine flat_map length].
    now rewrite Hrows.
  - destruct (IH (S i) (Some cb1) (done ++ [crop (rotate name d)]) t2 st')
      as (cb' & -> & Hrows' & Hlen); try assumption.
    + rewrite length_app. simpl. lia.
    + intros _. now exists cb1.
    + discriminate.
    + exists cb'. split; [reflexivity|]. split.
      * rewrite Hrows', <- app_assoc. reflexivity.
      * unfold timages_of in Hlen. now rewrite Hlen.
Qed.

Lemma image_minmax_positive (timage : image) (vmin vmax : Q) :
  image_minmax timage = Some (vmin, vmax) -> (0 < vmin)%Q.
Proof.
  unfold image_minmax. destruct (pixels timage) as [|p ps]; [discriminate|].
  destruct (good_pixels timage (list_max p ps)) as [|g gs] eqn:Hg; [discriminate|].
  intros H. injection H as <- _.
  destruct (list_min_spec gs g) as [Hin _]. rewrite <- Hg in Hin.
  now apply good_pixels_spec in Hin.
Qed.

(** In memory that holds nothing positive, the rows that pass the test of
    line 89 are the statistics of the images that have some. *)
Lemma rows_filter_clean (timages : list image) :
  (forall k, (uninit_minmax w k 0 <= 0)%Q) ->
  forall k0,
  filter (fun row => Qltb 0 (fst row))
         (map (fun k => row_of w (k0 + k) (nth_error timages k))
              (seq 0 (length timages)))
  = valid_minmax timages.
Proof.
  intros Hclean. induction timages as [|t ts IH]; intros k0; [reflexivity|].
  cbn [length seq map filter nth_error valid_minmax flat_map].
  rewrite <- seq_shift, map_map.
  assert (Hts : filter (fun row => Qltb 0 (fst row))
                  (map (fun k => row_of w (k0 + S k) (nth_error (t :: ts) (S k)))
                       (seq 0 (length ts)))
                = valid_minmax ts).
  { rewrite <- (IH (S k0)). f_equal. apply map_ext. intros k.
    cbn [nth_error]. now replace (k0 + S k) with (S k0 + k) by lia. }
  rewrite Hts. unfold row_of.
  destruct (image_minmax t) as [[vmin vmax]|] eqn:Em.
  - pose proof (image_minmax_positive _ _ _ Em) as Hpos. apply Qltb_lt in Hpos.
    cbn [fst]. now rewrite Hpos.
  - cbn [fst]. assert (E : Qltb 0 (uninit_minmax w (k0 + 0) 0) = false)
      by (apply Qltb_ge, Hclean).
    now rewrite E.
Qed.

(** The claim of C2 holds whenever the fresh [minmax_vals] array holds no
    positive value in its first column. *)
Lemma shared_range_clean_memory (filenames : list string) t cb :
  (forall k, (uninit_minmax w k 0 <= 0)%Q) ->
  n_files = length filenames ->
  read_images w filenames displaynames n_files = (t, Ret cb) ->
  plot_minmax (minmax_vals cb)
  = median_range (valid_minmax (timages_of w filenames displaynames)).
Proof.
  intros Hclean Hn H. unfold read_images in H.
  apply bind_Ret_inv in H as (t1 & st & t2 & Hloop & Hst & _).
  destruct filenames as [|x xs].
  { cbn in Hloop. injection Hloop as _ <-. discriminate. }
  destruct (read_loop_rows (x :: xs) 0 None [] t1 st eq_refl)
    as (cb' & -> & Hrows & Hlen); try assumption; try congruence.
  cbn in Hst. injection Hst as _ <-.
  unfold plot_minmax, median_range. cbn [skipn app] in Hrows, Hlen.
  rewrite Hrows. unfold rows. rewrite Hn, <- Hlen.
  now rewrite (rows_filter_clean _ Hclean 0).
Qed.

End SharedRange.

(** With clean memory the sample of two files gets the range of the one image
    that has statistics. *)
Example shared_range_clean_sample :
  ranges_of
    (fst (plot_imagegrid
            (Sample.on_disk [(Sample.std_file "dirty", Sample.img_ramp);
                             (Sample.std_file "skirt", Sample.img_flat)] 0)
            (fst (select_models Sample.default_args))
            (snd (select_models Sample.default_args))
            "000.53" "1e0" "090" false false))
  = [(Some 2%Q, Some 3%Q); (Some 2%Q, Some 3%Q)].
Proof. reflexivity. Qed.

(** C2 at the input where the code departs from it. Two files exist; the
    first image has the statistics (2, 3), the second has no pixel strictly
    between zero and its maximum, and the fresh [minmax_vals] array holds 5.
    The diagnostic is printed for the second image, yet its untouched row
    passes the test of line 89, and the range handed to both panels is
    (7/2, 4) instead of the medians (2, 3) over the images with statistics. *)
Theorem shared_range_stale_memory :
  let run := plot_imagegrid Sample.stale_memory
               (fst (select_models Sample.default_args))
               (snd (select_models Sample.default_args))
               "000.53" "1e0" "090" false false in
  snd run = Ret tt /\
  In (Printed [Py.VInt 1; Py.VStr (Sample.std_file "skirt");
               Py.VStr " has no positive values"]) (fst run) /\
  ranges_of (fst run)
    = [(Some (7 # 2)%Q, Some (8 # 2)%Q); (Some (7 # 2)%Q, Some (8 # 2)%Q)] /\
  median_range
    (valid_minmax
       (timages_of Sample.stale_memory
          [Sample.std_file "dirty"; Sample.std_file "skirt"]
          ["DIRTY"; "SKIRT"]%string))
    = (Some 2%Q, Some 3%Q).
Proof.
  vm_compute. repeat split. right. right. right. now left.
Qed.

(** C3, as the specification words it, fails: a 300 x 400 array labelled CRT
    is 400 x 300 after the rotation and is not cropped, while a window chosen
    by the size before the rotation would cut it to 251 rows. *)
Lemma crop_not_selected_before_rotation :
  crop (rotate "CRT" Sample.img_300x400)
  <> crop_by_loaded_size "CRT" Sample.img_300x400.
Proof.
  intros H. apply (f_equal shape0) in H. vm_compute in H. discriminate.
Qed.

Lemma crop_other_sizes_witness :
  crop (rotate "CRT" Sample.img_ramp) = rotate "CRT" Sample.img_ramp.
Proof.
  apply (crop_other_sizes "CRT" Sample.img_ramp); vm_compute; discriminate.
Defined.

(** A benchmark-sized image labelled DIRTY is cut to 251 x 210. *)
Example crop_300_square :
  let t := crop (rotate "DIRTY" (mk_image 300 300 (fun _ _ => 1%Q))) in
  shape0 t = 251 /\ shape1 t = 210.
Proof. vm_compute. split; reflexivity. Qed.

(** * Further properties of the program *)

(** ** Labels and grid cells that are not there *)

Lemma check_files_loop_raises (w : world) (moddisplaynames : list string)
      (xs : list string) :
  forall (k : nat) (acc : list string * list string * list nat),
  (exists j cfile, nth_error xs j = Some cfile /\ isfile w cfile = true /\
                   length moddisplaynames <= k + j) ->
  for_enumerate k xs
    (fun i cfile '(filenames, displaynames, fileindxs) =>
       if isfile w cfile
       then name <- getitem moddisplaynames i ;;
            ret (filenames ++ [cfile], displaynames ++ [name], fileindxs ++ [i])
       else ret (filenames, displaynames, fileindxs))
    acc
  = ([], Raise Py.IndexError).
Proof.
  induction xs as [|x xs IH]; intros k [[fs ds] ks] (j & cfile & Hj & Hf & Hlen).
  - destruct j; discriminate.
  - cbn [for_enumerate].
    assert (Hrest : j <> 0 ->
              exists j' c, nth_error xs j' = Some c /\ isfile w c = true /\
                           length moddisplaynames <= S k + j').
    { intros Hj0. destruct j as [|j']; [congruence|].
      exists j', cfile. repeat split; try assumption. lia. }
    destruct (isfile w x) eqn:Ex.
    + unfold getitem.
      destruct (nth_error moddisplaynames k) as [name|] eqn:En; [|reflexivity].
      rewrite (bind_ret_l name), (bind_ret_l (fs ++ [x], ds ++ [name], ks ++ [k])).
      apply IH, Hrest. intros ->.
      assert (k < length moddisplaynames) by (apply nth_error_Some; congruence).
      lia.
    + rewrite (bind_ret_l (fs, ds, ks)). apply IH, Hrest. intros ->.
      cbn in Hj. injection Hj as ->. congruence.
Qed.

(** X1. When a file exists whose model has no label (its original index is
    past the end of the label list), the render raises IndexError out of the
    existence filter, before anything is printed or drawn. *)
Theorem missing_label_raises (w : world) (modnames moddisplaynames : list string)
        (wave tau angle : string) (save_eps save_png : bool) (i : nat) :
  In i (existing w (ifilenames_of modnames wave tau angle)) ->
  length moddisplaynames <= i ->
  plot_imagegrid w modnames moddisplaynames wave tau angle save_eps save_png
  = ([], Raise Py.IndexError).
Proof.
  intros Hi Hlen. apply existing_spec in Hi as (cfile & Hc & Hf).
  unfold plot_imagegrid, check_files.
  rewrite check_files_loop_raises; [reflexivity|].
  exists i, cfile. repeat split; assumption.
Qed.

Lemma missing_label_raises_witness :
  plot_imagegrid Sample.three_of_seven
    (fst (select_models Sample.default_args)) ["CRT"]%string
    "000.53" "1e0" "090" false false
  = ([], Raise Py.IndexError).
Proof.
  apply (missing_label_raises Sample.three_of_seven _ _ _ _ _ _ _ 1).
  - vm_compute. now left.
  - vm_compute. lia.
Defined.

Lemma make_axes_loop_raises (fileindxs : list nat) :
  forall (m k : nat) (ax : list axes),
  k + m <= length fileindxs ->
  (exists j indx, k <= j < k + m /\ nth_error fileindxs j = Some indx /\ 9 <= indx) ->
  snd (for_in (seq k m)
         (fun i ax =>
            indx <- getitem fileindxs i ;;
            cell <- gridspec_getitem 3 4 (divmod indx 3) ;;
            emit (Subplot cell) ;;;
            ret (ax ++ [cell]))
         ax)
  = Raise Py.IndexError.
Proof.
  induction m as [|m IH]; intros k ax Hk (j & x & Hj & Hx & H9); [lia|].
  cbn [seq for_in].
  destruct (nth_error fileindxs k) as [y|] eqn:Ek.
  2:{ apply nth_error_None in Ek. lia. }
  rewrite (getitem_nth_error _ _ _ Ek), (bind_ret_l y).
  destruct (Nat.lt_ge_cases y 9) as [Hy|Hy].
  - rewrite (gridspec_cell y Hy), (bind_ret_l (y / 3, y mod 3)), bind_emit.
    cbn [fst snd ret]. rewrite bind_snd. cbn [snd].
    apply IH; [lia|]. exists j, x. repeat split; try assumption; try lia.
    destruct (Nat.eq_dec j k) as [->|]; [|lia].
    rewrite Ek in Hx. injection Hx as ->. lia.
  - rewrite (gridspec_no_cell y Hy). reflexivity.
Qed.

Section StageTracesMore.

Variable P : event -> Prop.

Lemma check_files_trace (w : world) moddisplaynames ifilenames :
  Forall P (fst (check_files w moddisplaynames ifilenames)).
Proof.
  unfold check_files. apply Forall_for_enumerate.
  intros i cfile [[fs ds] ks]. destruct (isfile w cfile); [|constructor].
  apply Forall_bind; [apply Forall_getitem|]. intros name. constructor.
Qed.

Lemma make_axes_trace n_files fileindxs :
  (forall a, P (Subplot a)) -> Forall P (fst (make_axes n_files fileindxs)).
Proof.
  intros HP. unfold make_axes. apply Forall_for_in. intros i ax.
  apply Forall_bind; [apply Forall_getitem|]. intros indx.
  apply Forall_bind; [unfold gridspec_getitem; destruct (_ && _); constructor|].
  intros cell. apply Forall_bind; [apply Forall_emit, HP|]. intros _. constructor.
Qed.


End StageTracesMore.

(** X2. A model set with a tenth member does not fit the grid: when every
    model has a label and a file of original index 9 or more exists, the
    render raises IndexError while the panels are created; by then no file
    has been read, nothing has been drawn into a panel and nothing written. *)
Theorem tenth_model_raises (w : world) (modnames moddisplaynames : list string)
        (wave tau angle : string) (save_eps save_png : bool) (i : nat) :
  length modnames <= length moddisplaynames ->
  In i (existing w (ifilenames_of modnames wave tau angle)) ->
  9 <= i ->
  let run := plot_imagegrid w modnames moddisplaynames wave tau angle
                            save_eps save_png in
  snd run = Raise Py.IndexError /\
  ranges_of (fst run) = [] /\
  titles_of (fst run) = [] /\
  outputs_of (fst run) = [].
Proof.
  intros Hlab Hi H9 run. subst run.
  assert (Hne : existing w (ifilenames_of modnames wave tau angle) <> [])
    by (intros E; rewrite E in Hi; destruct Hi).
  rewrite plot_imagegrid_unfold by assumption.
  set (fileindxs := existing w (ifilenames_of modnames wave tau angle)) in *.
  set (filenames := map _ fileindxs).
  assert (Hn : length filenames = length fileindxs)
    by (unfold filenames; apply length_map).
  assert (Hraise : snd (make_axes (length filenames) fileindxs)
                   = Raise Py.IndexError).
  { unfold make_axes, range. apply make_axes_loop_raises; [lia|].
    apply In_nth_error in Hi as [j Hj]. exists j, i.
    assert (j < length fileindxs) by (apply nth_error_Some; congruence).
    repeat split; try assumption; lia. }
  rewrite bind_emit. cbn [fst snd]. rewrite bind_snd, bind_fst, Hraise.
  rewrite app_nil_r. split; [reflexivity|].
  repeat split.
  - cbn [ranges_of flat_map app]. apply flat_map_nil_Forall.
    now apply make_axes_trace.
  - cbn [titles_of flat_map app]. apply flat_map_nil_Forall.
    now apply make_axes_trace.
  - cbn [outputs_of filter is_output]. apply filter_nil_Forall.
    now apply make_axes_trace.
Qed.

Lemma tenth_model_raises_witness :
  let run := plot_imagegrid Edge.tenth_only Edge.ten_models Edge.ten_models
                            "000.53" "1e0" "090" false true in
  snd run = Raise Py.IndexError /\
  ranges_of (fst run) = [] /\
  titles_of (fst run) = [] /\
  outputs_of (fst run) = [].
Proof.
  apply (tenth_model_raises Edge.tenth_only Edge.ten_models Edge.ten_models
           "000.53" "1e0" "090" false true 9).
  - vm_compute. lia.
  - vm_compute. now left.
  - lia.
Defined.

(** ** What a render that does not complete leaves behind *)




(** The unreadable file stops the render after its one panel was created. *)
Example unreadable_run :
  plot_imagegrid Edge.unreadable
    (fst (select_models Sample.default_args))
    (snd (select_models Sample.default_args))
    "000.53" "1e0" "090" true true
  = ([Subplots; Subplot (0, 2)], Raise Py.OSError).
Proof. reflexivity. Qed.

(** ** The figure of a completed render *)

Lemma filter_skip {A B} (p : event -> bool) (m : M A) (f : A -> M B) (b : B) :
  Forall (fun e => p e = false) (fst m) ->
  snd (bind m f) = Ret b ->
  exists a, snd m = Ret a /\ snd (f a) = Ret b /\
            filter p (fst (bind m f)) = filter p (fst (f a)).
Proof.
  intros Hq H. rewrite bind_snd in H. rewrite bind_fst, filter_app.
  destruct (snd m) as [a | s | e]; try discriminate.
  exists a. split; [reflexivity|]. split; [exact H|].
  now rewrite (filter_nil_Forall _ _ Hq).
Qed.

(** X4. A completed render opens one figure and closes it: of the events
    that create and release a figure the trace holds the creation first and
    the release last, once each. *)
Theorem completed_render_closes_figure (w : world)
        (modnames moddisplaynames : list string)
        (wave tau angle : string) (save_eps save_png : bool) :
  let run := plot_imagegrid w modnames moddisplaynames wave tau angle
                            save_eps save_png in
  snd run = Ret tt ->
  lifecycle (fst run) = [Subplots; CloseFigure] /\
  last (fst run) Subplots = CloseFigure.
Proof.
  intros run H. split.
  - subst run. unfold lifecycle, plot_imagegrid in *.
    apply (filter_skip is_lifecycle) in H as ([[fs ds] ks] & _ & H & ->);
      [|apply check_files_trace].
    apply (filter_skip is_lifecycle) in H as ([] & _ & H & ->).
    2:{ destruct (length fs =? 0); [|constructor].
        apply Forall_bind; [now apply Forall_emit|]. intros _.
        apply Forall_bind; [now apply Forall_emit|]. intros _. constructor. }
    rewrite bind_emit in *. cbn [fst snd filter is_lifecycle] in *. f_equal.
    apply (filter_skip is_lifecycle) in H as (ax & _ & H & ->); [|now apply make_axes_trace].
    apply (filter_skip is_lifecycle) in H as (cb & _ & H & ->); [|now apply read_images_trace].
    apply (filter_skip is_lifecycle) in H as ([] & _ & H & ->); [|now apply show_images_trace].
    apply (filter_skip is_lifecycle) in H as ([] & _ & H & ->); [|now apply Forall_emit].
    apply (filter_skip is_lifecycle) in H as ([] & _ & H & ->); [|now apply Forall_emit].
    apply (filter_skip is_lifecycle) in H as ([] & _ & H & ->); [|now apply Forall_emit].
    apply (filter_skip is_lifecycle) in H as ([] & _ & H & ->); [|now apply save_figure_trace].
    reflexivity.
  - subst run. unfold plot_imagegrid in *.
    destruct (plot_imagegrid w modnames moddisplaynames wave tau angle
                             save_eps save_png) as [t o] eqn:E.
    unfold plot_imagegrid in E. rewrite E in H. cbn [snd] in H. subst o.
    rewrite E. cbn [fst].
    apply bind_Ret_inv in E as (t1 & [[fs ds] ks] & t2 & _ & E & ->).
    apply bind_Ret_inv in E as (t3 & [] & t4 & _ & E & ->).
    apply bind_Ret_inv in E as (t5 & [] & t6 & _ & E & ->).
    apply bind_Ret_inv in E as (t7 & ax & t8 & _ & E & ->).
    apply bind_Ret_inv in E as (t9 & cb & t10 & _ & E & ->).
    apply bind_Ret_inv in E as (t11 & [] & t12 & _ & E & ->).
    apply bind_Ret_inv in E as (t13 & [] & t14 & _ & E & ->).
    apply bind_Ret_inv in E as (t15 & [] & t16 & _ & E & ->).
    apply bind_Ret_inv in E as (t17 & [] & t18 & _ & E & ->).
    apply bind_Ret_inv in E as (t19 & [] & t20 & _ & E & ->).
    injection E as <-.
    rewrite !app_assoc. apply last_last.
Qed.

Lemma completed_render_closes_figure_witness :
  let run := plot_imagegrid Sample.three_of_seven
               (fst (select_models Sample.default_args))
               (snd (select_models Sample.default_args))
               "000.53" "1e0" "090" false false in
  lifecycle (fst run) = [Subplots; CloseFigure] /\
  last (fst run) Subplots = CloseFigure.
Proof.
  apply (completed_render_closes_figure Sample.three_of_seven
           (fst (select_models Sample.default_args))
           (snd (select_models Sample.default_args))
           "000.53" "1e0" "090" false false).
  reflexivity.
Defined.

(** ** Sweeps *)

Lemma bind_abort {A} (m : M A) (f : A -> M A) :
  is_ret (snd m) = false -> bind m f = m.
Proof. destruct m as [t [a | s | e]]; [discriminate|reflexivity|reflexivity]. Qed.

(** X5. A sweep stops at the first combination whose render does not
    complete, whatever the reason: the run is the renders before it followed
    by that render, and it ends with that render's exit or exception. *)
Theorem sweep_stops_at_first_failure (w : world) (args : Args.t)
        (pre post : list (string * string * string)) (c : string * string * string) :
  sweep_order args = pre ++ c :: post ->
  forallb (fun c' => is_ret (snd (render w args c'))) pre = true ->
  is_ret (snd (render w args c)) = false ->
  main w args
  = (flat_map (fun c' => fst (render w args c')) pre ++ fst (render w args c),
     snd (render w args c)).
Proof.
  intros Hsplit Hpre Hc.
  rewrite main_sweep, Hsplit, for_each_app, (for_each_all_ret _ _ Hpre), bind_run.
  cbn [for_each]. now rewrite (bind_abort _ _ Hc).
Qed.

Lemma sweep_stops_at_first_failure_witness :
  main Edge.second_unreadable Sample.sweep_args
  = (flat_map (fun c' => fst (render Edge.second_unreadable Sample.sweep_args c'))
              [("090", "1e0", "000.15")]%string
     ++ fst (render Edge.second_unreadable Sample.sweep_args
                    ("090", "1e0", "000.53")%string),
     snd (render Edge.second_unreadable Sample.sweep_args
                 ("090", "1e0", "000.53")%string)).
Proof.
  apply (sweep_stops_at_first_failure Edge.second_unreadable Sample.sweep_args
           [("090", "1e0", "000.15")]%string
           [("090", "1e0", "035.11"); ("090", "1e0", "151.99")]%string
           ("090", "1e0", "000.53")%string); reflexivity.
Defined.

(** The second wavelength fails on its unreadable file; the first had already
    written its two files. *)
Example second_unreadable_run :
  snd (main Edge.second_unreadable Sample.sweep_args) = Raise Py.OSError /\
  outputs_of (fst (main Edge.second_unreadable Sample.sweep_args))
  = [Savefig "slab_t1e0_i090_w000.15_image_comp.png" None;
     Savefig "slab_t1e0_i090_w000.15_image_comp_small.png" (Some 13)].
Proof. vm_compute. split; reflexivity. Qed.

Lemma for_each_Ret_all {A} (xs : list A) (body : A -> M unit) :
  snd (for_each xs body) = Ret tt ->
  forallb (fun x => is_ret (snd (body x))) xs = true.
Proof.
  induction xs as [|x xs IH]; intros H; [reflexivity|].
  cbn [for_each] in H. rewrite bind_snd in H. cbn [forallb].
  destruct (snd (body x)) as [[] | s | e]; try discriminate.
  cbn [is_ret andb]. now apply IH.
Qed.

Lemma filter_flat_map {A B} (p : B -> bool) (f : A -> list B) (l : list A) :
  filter p (flat_map f l) = flat_map (fun x => filter p (f x)) l.
Proof.
  induction l as [|x l IH]; [reflexivity|].
  cbn [flat_map]. now rewrite filter_app, IH.
Qed.

Lemma flat_map_ext_in {A B} (f g : A -> list B) (l : list A) :
  (forall x, In x l -> f x = g x) -> flat_map f l = flat_map g l.
Proof.
  induction l as [|x l IH]; intros H; [reflexivity|].
  cbn [flat_map]. rewrite (H x (or_introl eq_refl)), IH; [reflexivity|].
  intros y Hy. apply H. now right.
Qed.

Lemma render_outputs (w : world) (args : Args.t) (c : string * string * string) :
  is_ret (snd (render w args c)) = true ->
  outputs_of (fst (render w args c)) = outputs_for args c /\
  filter is_close (fst (render w args c)) = [CloseFigure].
Proof.
  destruct c as [[angle tau] wave]. unfold render, outputs_for. intros H.
  assert (Hret : snd (plot_imagegrid w (fst (select_models args))
                        (snd (select_models args)) wave tau angle
                        (Args.eps args) (Args.png args)) = Ret tt).
  { destruct (snd (plot_imagegrid _ _ _ _ _ _ _ _)) as [[]| |]; now try discriminate. }
  split.
  - rewrite (plot_imagegrid_outputs _ _ _ _ _ _ _ _ Hret).
    unfold save_figure. now destruct (Args.png args), (Args.eps args).
  - revert Hret. unfold plot_imagegrid. intros Hret.
    apply (filter_skip is_close) in Hret as ([[fs ds] ks] & _ & Hret & ->);
      [|apply check_files_trace].
    apply (filter_skip is_close) in Hret as ([] & _ & Hret & ->).
    2:{ destruct (length fs =? 0); [|constructor].
        apply Forall_bind; [now apply Forall_emit|]. intros _.
        apply Forall_bind; [now apply Forall_emit|]. intros _. constructor. }
    apply (filter_skip is_close) in Hret as ([] & _ & Hret & ->);
      [|now apply Forall_emit].
    apply (filter_skip is_close) in Hret as (ax & _ & Hret & ->);
      [|now apply make_axes_trace].
    apply (filter_skip is_close) in Hret as (cb & _ & Hret & ->);
      [|now apply read_images_trace].
    apply (filter_skip is_close) in Hret as ([] & _ & Hret & ->);
      [|now apply show_images_trace].
    apply (filter_skip is_close) in Hret as ([] & _ & Hret & ->);
      [|now apply Forall_emit].
    apply (filter_skip is_close) in Hret as ([] & _ & Hret & ->);
      [|now apply Forall_emit].
    apply (filter_skip is_close) in Hret as ([] & _ & Hret & ->);
      [|now apply Forall_emit].
    apply (filter_skip is_close) in Hret as ([] & _ & Hret & ->);
      [|now apply save_figure_trace].
    reflexivity.
Qed.

Lemma sweep_order_length (args : Args.t) :
  length (sweep_order args)
  = (if String.eqb (Args.angle args) "all" then 7 else 1)
    * (if String.eqb (Args.tau args) "all" then 4 else 1)
    * (if String.eqb (Args.wave args) "all" then 4 else 1).
Proof.
  unfold sweep_order, expand_all. cbn [existsb].
  rewrite !orb_false_r, !eqb_all_sym.
  destruct (String.eqb (Args.angle args) "all"),
    (String.eqb (Args.tau args) "all"), (String.eqb (Args.wave args) "all");
    reflexivity.
Qed.

(** X6. A sweep that completes has rendered every combination once, in the
    order angle, tau, wavelength (innermost): its output actions are those of
    each combination in that order (two raster files, or one vector file, or
    one window each), and it has closed as many figures as there are
    combinations, 7, 4 and 4 values for an axis given as "all" and one value
    otherwise. *)
Theorem completed_sweep_outputs (w : world) (args : Args.t) :
  snd (main w args) = Ret tt ->
  outputs_of (fst (main w args)) = flat_map (outputs_for args) (sweep_order args) /\
  length (filter is_close (fst (main w args)))
  = (if String.eqb (Args.angle args) "all" then 7 else 1)
    * (if String.eqb (Args.tau args) "all" then 4 else 1)
    * (if String.eqb (Args.wave args) "all" then 4 else 1).
Proof.
  rewrite main_sweep. intros H.
  apply for_each_Ret_all in H.
  rewrite (for_each_all_ret _ _ H). cbn [fst].
  assert (Hin : forall c, In c (sweep_order args) ->
                          is_ret (snd (render w args c)) = true)
    by (now apply forallb_forall).
  split.
  - unfold outputs_of. rewrite filter_flat_map. apply flat_map_ext_in.
    intros c Hc. now apply render_outputs, Hin.
  - rewrite <- sweep_order_length, filter_flat_map.
    rewrite (flat_map_ext_in _ (fun _ => [CloseFigure])).
    + clear. induction (sweep_order args) as [|c l IH]; [reflexivity|].
      cbn [flat_map app length]. now rewrite IH.
    + intros c Hc. now apply render_outputs, Hin.
Qed.

Lemma completed_sweep_outputs_witness :
  outputs_of (fst (main Edge.all_present Sample.sweep_args))
  = flat_map (outputs_for Sample.sweep_args) (sweep_order Sample.sweep_args) /\
  length (filter is_close (fst (main Edge.all_present Sample.sweep_args)))
  = (if String.eqb (Args.angle Sample.sweep_args) "all" then 7 else 1)
    * (if String.eqb (Args.tau Sample.sweep_args) "all" then 4 else 1)
    * (if String.eqb (Args.wave Sample.sweep_args) "all" then 4 else 1).
Proof.
  apply (completed_sweep_outputs Edge.all_present Sample.sweep_args).
  vm_compute. reflexivity.
Defined.

(** The sweep over everything: 112 combinations, 224 raster files. *)
Example full_sweep_run :
  snd (main Edge.all_present Edge.full_sweep) = Ret tt /\
  length (sweep_order Edge.full_sweep) = 112 /\
  length (outputs_of (fst (main Edge.all_present Edge.full_sweep))) = 224.
Proof. vm_compute. repeat split. Qed.

(** ** Pixels through rotation and cropping *)

Lemma in_pixels (m : image) (p : Q) :
  In p (pixels m) <->
  exists r c, r < shape0 m /\ c < shape1 m /\ p = at_ m r c.
Proof.
  unfold pixels. rewrite in_flat_map. split.
  - intros (r & Hr & Hp). apply in_map_iff in Hp as (c & <- & Hc).
    apply in_seq in Hr, Hc. exists r, c. repeat split; lia.
  - intros (r & c & Hr & Hc & ->). exists r. split; [apply in_seq; lia|].
    apply in_map_iff. exists c. split; [reflexivity|apply in_seq; lia].
Qed.

Lemma length_rows {A} (g : nat -> nat -> A) (wd : nat) (l : list nat) :
  length (flat_map (fun r => map (g r) (seq 0 wd)) l) = length l * wd.
Proof.
  induction l as [|r l IH]; [reflexivity|].
  cbn [flat_map length]. now rewrite length_app, length_map, length_seq, IH.
Qed.

Lemma length_pixels (m : image) : length (pixels m) = shape0 m * shape1 m.
Proof. unfold pixels. now rewrite length_rows, length_seq. Qed.

Lemma slice2_shape (m : image) (r0 r1 c0 c1 : nat) :
  shape0 (slice2 m r0 r1 c0 c1) <= shape0 m /\
  shape1 (slice2 m r0 r1 c0 c1) <= shape1 m.
Proof. cbn. lia. Qed.

Lemma slice2_pixels (m : image) (r0 r1 c0 c1 : nat) :
  incl (pixels (slice2 m r0 r1 c0 c1)) (pixels m).
Proof.
  intros p Hp. apply in_pixels in Hp as (r & c & Hr & Hc & ->).
  apply in_pixels. cbn in *. exists (r0 + r), (c0 + c). repeat split; lia.
Qed.

Lemma rot90_pixels (m : image) (p : Q) :
  In p (pixels (np_rot90_3 m)) <-> In p (pixels m).
Proof.
  rewrite !in_pixels. cbn. split.
  - intros (i & j & Hi & Hj & ->). exists (shape0 m - 1 - j), i.
    repeat split; lia.
  - intros (r & c & Hr & Hc & ->). exists c, (shape0 m - 1 - r).
    repeat split; try lia. f_equal. lia.
Qed.

(** X7. Rotation and cropping only ever pass on pixels of the loaded array:
    every pixel that reaches the statistics and the panel is a pixel of the
    file's image, and there are never more of them than were loaded. *)
Theorem preprocess_keeps_pixels (displayname : string) (loaded : image) :
  incl (pixels (crop (rotate displayname loaded))) (pixels loaded) /\
  length (pixels (crop (rotate displayname loaded))) <= length (pixels loaded).
Proof.
  assert (Hrot : incl (pixels (rotate displayname loaded)) (pixels loaded) /\
                 length (pixels (rotate displayname loaded))
                 = length (pixels loaded)).
  { rewrite rotate_is_rotated. destruct (is_rotated displayname).
    - split; [intros p; apply rot90_pixels|].
      rewrite !length_pixels. cbn. lia.
    - split; [apply incl_refl|reflexivity]. }
  destruct Hrot as [Hin Hlen]. rewrite <- Hlen.
  set (t := rotate displayname loaded) in *. unfold crop.
  destruct (shape0 t =? 300); [|destruct (shape0 t =? 600)].
  - split; [eapply incl_tran; [apply slice2_pixels|exact Hin]|].
    rewrite !length_pixels.
    apply Nat.mul_le_mono; apply slice2_shape.
  - split; [eapply incl_tran; [apply slice2_pixels|exact Hin]|].
    rewrite !length_pixels.
    apply Nat.mul_le_mono; apply slice2_shape.
  - split; [exact Hin|lia].
Qed.

(** X8. For an array whose two dimensions are equal the rotation does not
    change which window is taken: the window is the one of the loaded array's
    leading dimension, for every label. *)
Theorem square_crop_by_loaded_size (displayname : string) (loaded : image) :
  shape0 loaded = shape1 loaded ->
  crop (rotate displayname loaded) = crop_by_loaded_size displayname loaded.
Proof.
  intros Hsq. unfold crop_by_loaded_size.
  rewrite crop_crop_keyed. f_equal.
  rewrite rotate_is_rotated. destruct (is_rotated displayname); cbn; congruence.
Qed.

Lemma square_crop_by_loaded_size_witness :
  crop (rotate "SOC" (mk_image 300 300 (fun r c => inject_Z (Z.of_nat (r + c)))))
  = crop_by_loaded_size "SOC"
      (mk_image 300 300 (fun r c => inject_Z (Z.of_nat (r + c)))).
Proof.
  apply (square_crop_by_loaded_size "SOC"). reflexivity.
Defined.

(** ** Images without pixels and images of one value *)

Lemma pixels_nil (m : image) : shape0 m * shape1 m = 0 -> pixels m = [].
Proof.
  intros H. apply length_zero_iff_nil. now rewrite length_pixels.
Qed.

(** X9. An image too narrow for its window is cropped to nothing and stops
    the render: 300 rows with at most 45 columns, or 600 rows with at most 90
    columns, leave no pixel, and the maximum of line 81 raises ValueError. *)
Theorem narrow_image_raises (i : nat) (cfile : string) (timage : image)
        (minmax_vals : list (Q * Q)) :
  (shape0 timage = 300 /\ shape1 timage <= 45) \/
  (shape0 timage = 600 /\ shape1 timage <= 90) ->
  pixels (crop timage) = [] /\
  save_minmax i cfile (crop timage) minmax_vals = ([], Raise Py.ValueError).
Proof.
  intros H.
  assert (Hp : pixels (crop timage) = []).
  { apply pixels_nil. unfold crop.
    destruct H as [[H0 H1]|[H0 H1]]; rewrite H0; cbn [Nat.eqb slice2 shape0 shape1].
    - replace (Nat.min 255 (shape1 timage) - Nat.min 45 (shape1 timage)) with 0 by lia.
      lia.
    - replace (Nat.min 510 (shape1 timage) - Nat.min 90 (shape1 timage)) with 0 by lia.
      lia. }
  split; [exact Hp|]. unfold save_minmax. now rewrite Hp.
Qed.

Lemma narrow_image_raises_witness :
  pixels (crop Edge.img_300x40) = [] /\
  save_minmax 0 "narrow.fits" (crop Edge.img_300x40) [(0, 0)%Q]
  = ([], Raise Py.ValueError).
Proof.
  apply (narrow_image_raises 0 "narrow.fits" Edge.img_300x40 [(0, 0)%Q]).
  left. split; [reflexivity|]. cbn. lia.
Defined.

(** X10. An image whose pixels all have one value has no statistics,
    whatever that value: no pixel is strictly below the maximum, so the row
    is left as it was and the diagnostic "has no positive values" is printed,
    also when every pixel is positive. *)
Theorem constant_image_no_statistics (i : nat) (cfile : string) (timage : image)
        (minmax_vals : list (Q * Q)) :
  pixels timage <> [] ->
  (forall p q, In p (pixels timage) -> In q (pixels timage) -> (p == q)%Q) ->
  save_minmax i cfile timage minmax_vals
  = ([Printed [Py.VInt i; Py.VStr cfile; Py.VStr " has no positive values"]],
     Ret minmax_vals).
Proof.
  intros Hne Hconst. destruct (pixels timage) as [|p ps] eqn:Hp; [congruence|].
  rewrite (save_minmax_run _ _ _ _ _ _ Hp).
  destruct (good_pixels timage (list_max p ps)) as [|g gs] eqn:Hg; [reflexivity|].
  exfalso.
  assert (Hin : In g (good_pixels timage (list_max p ps)))
    by (rewrite Hg; now left).
  apply good_pixels_spec in Hin as (Hgp & _ & Hlt).
  destruct (list_max_spec ps p) as [Hmax _].
  rewrite Hp in Hgp. specialize (Hconst g (list_max p ps) Hgp Hmax). lra.
Qed.

Lemma constant_image_no_statistics_witness :
  save_minmax 3 "sevens.fits" Edge.img_sevens [(1, 2)%Q]
  = ([Printed [Py.VInt 3; Py.VStr "sevens.fits"; Py.VStr " has no positive values"]],
     Ret [(1, 2)%Q]).
Proof.
  apply (constant_image_no_statistics 3 "sevens.fits" Edge.img_sevens [(1, 2)%Q]).
  - vm_compute. discriminate.
  - intros p q Hp Hq. vm_compute in Hp, Hq.
    repeat (destruct Hp as [<-|Hp]); try contradiction;
      repeat (destruct Hq as [<-|Hq]); try contradiction; reflexivity.
Defined.

(** ** The limits handed to the colour scale *)

Lemma insert_sorted_length (x : Q) (l : list Q) :
  length (insert_sorted x l) = S (length l).
Proof.
  induction l as [|y l IH]; [reflexivity|].
  cbn [insert_sorted]. destruct (Qle_bool x y); cbn [length]; now rewrite ?IH.
Qed.

Lemma np_sort_length (l : list Q) : length (np_sort l) = length l.
Proof.
  induction l as [|x l IH]; [reflexivity|].
  cbn [np_sort fold_right]. fold (np_sort l). now rewrite insert_sorted_length, IH.
Qed.

Lemma insert_sorted_Forall (P : Q -> Prop) (x : Q) (l : list Q) :
  P x -> Forall P l -> Forall P (insert_sorted x l).
Proof.
  intros Hx. induction 1 as [|y l Hy Hl IH]; cbn [insert_sorted].
  - now repeat constructor.
  - destruct (Qle_bool x y); repeat constructor; assumption.
Qed.

Lemma np_sort_Forall (P : Q -> Prop) (l : list Q) :
  Forall P l -> Forall P (np_sort l).
Proof.
  induction 1 as [|x l Hx Hl IH]; [constructor|].
  cbn [np_sort fold_right]. now apply insert_sorted_Forall.
Qed.

Lemma Forall_nth_Q (P : Q -> Prop) (l : list Q) (i : nat) (d : Q) :
  Forall P l -> i < length l -> P (nth i l d).
Proof. intros H Hi. rewrite Forall_forall in H. now apply H, nth_In. Qed.

Lemma np_median_none (l : list Q) : np_median l = None <-> l = [].
Proof.
  unfold np_median. rewrite np_sort_length. destruct l as [|x l].
  - now split.
  - cbn [length Nat.eqb]. split; [|discriminate].
    destruct (Nat.even (S (length l))); discriminate.
Qed.

Lemma np_median_positive (l : list Q) (v : Q) :
  Forall (fun x => (0 < x)%Q) l -> np_median l = Some v -> (0 < v)%Q.
Proof.
  intros Hpos. apply np_sort_Forall in Hpos. unfold np_median.
  set (s := np_sort l) in *. destruct (length s =? 0) eqn:E0; [discriminate|].
  apply Nat.eqb_neq in E0.
  assert (Hhalf : length s / 2 < length s)
    by (apply Nat.div_lt; lia).
  remember (length s / 2) as h eqn:Eh. clear Eh.
  pose proof (Forall_nth_Q _ s h 0%Q Hpos Hhalf) as Hb.
  pose proof (Forall_nth_Q _ s (h - 1) 0%Q Hpos ltac:(lia)) as Ha.
  cbv beta in Ha, Hb.
  remember (nth h s 0%Q) as b eqn:Eb. clear Eb.
  remember (nth (h - 1) s 0%Q) as a eqn:Ea. clear Ea.
  destruct (Nat.even (length s)); intros H; injection H as <-.
  - apply Qlt_shift_div_l; [reflexivity|lra].
  - exact Hb.
Qed.

(** X11. The two limits of the colour scale are defined together, and only
    when some row of [minmax_vals] has a positive first column; a lower limit
    that is defined is strictly positive, as a logarithmic scale needs. When
    no row qualifies both limits are the median of nothing. *)
Theorem plot_minmax_limits (minmax_vals : list (Q * Q)) :
  match plot_minmax minmax_vals with
  | (Some vmin, Some vmax) =>
      (0 < vmin)%Q /\ exists row, In row minmax_vals /\ (0 < fst row)%Q
  | (None, None) => forall row, In row minmax_vals -> (fst row <= 0)%Q
  | _ => False
  end.
Proof.
  unfold plot_minmax.
  set (gindxs := filter (fun row => Qltb 0 (fst row)) minmax_vals).
  assert (Hg : forall row, In row gindxs <-> In row minmax_vals /\ (0 < fst row)%Q).
  { intros row. unfold gindxs. now rewrite filter_In, Qltb_lt. }
  destruct gindxs as [|g gs] eqn:Eg.
  - cbn [map]. change (np_median []) with (@None Q).
    intros row Hrow. destruct (Qlt_le_dec 0 (fst row)) as [Hlt|Hle]; [|exact Hle].
    exfalso. apply (proj2 (Hg row)). now split.
  - destruct (np_median (map fst (g :: gs))) as [vmin|] eqn:E1.
    2:{ apply np_median_none in E1. discriminate. }
    destruct (np_median (map snd (g :: gs))) as [vmax|] eqn:E2.
    2:{ apply np_median_none in E2. discriminate. }
    split.
    + apply (np_median_positive _ _ ) in E1; [exact E1|].
      apply Forall_forall. intros x Hx. apply in_map_iff in Hx as (row & <- & Hrow).
      now apply Hg in Hrow.
    + exists g. apply Hg. now left.
Qed.

(** ** The cube of images *)

Lemma setitem_length {A} (l : list A) (i : nat) (v : A) :
  length (setitem l i v) = length l.
Proof.
  revert i. induction l as [|x l IH]; intros [|i]; cbn [setitem length]; auto.
Qed.

Lemma setitem_Forall {A} (P : A -> Prop) (l : list A) (i : nat) (v : A) :
  Forall P l -> P v -> Forall P (setitem l i v).
Proof.
  intros Hl Hv. revert i. induction Hl as [|x l Hx Hl IH]; intros [|i];
    cbn [setitem]; constructor; auto.
Qed.

Lemma broadcast_to_inv (t : image) (h wd : nat) tr img :
  broadcast_to t h wd = (tr, Ret img) ->
  shape0 img = h /\ shape1 img = wd /\
  (shape0 t = h \/ shape0 t = 1) /\ (shape1 t = wd \/ shape1 t = 1).
Proof.
  unfold broadcast_to.
  destruct (((shape0 t =? h) || (shape0 t =? 1))
            && ((shape1 t =? wd) || (shape1 t =? 1))) eqn:E; [|discriminate].
  intros H. injection H as _ <-. cbn [shape0 shape1].
  apply andb_true_iff in E as [E0 E1].
  apply orb_true_iff in E0, E1.
  rewrite !Nat.eqb_eq in E0, E1. auto.
Qed.

Section CubeShape.

Variable w : world.
Variable displaynames : list string.
Variable n_files : nat.
Variables h wd : nat.

Local Abbreviation bound := (bound n_files h wd).
Local Abbreviation fits := (fits h wd).

Lemma read_image_later (i : nat) (cfile : string) (st : option cube) t st1 :
  i <> 0 -> bound st ->
  read_image w displaynames n_files i cfile st = (t, Ret st1) ->
  exists d name,
    getdata w cfile = Some d /\ nth_error displaynames i = Some name /\
    fits (crop (rotate name d)) /\ bound st1.
Proof.
  intros Hi (cb & -> & Hlen & Hall) H. unfold read_image in H.
  destruct (getdata w cfile) as [d|]; [|discriminate].
  rewrite (bind_ret_l d) in H. unfold getitem at 1 in H.
  destruct (nth_error displaynames i) as [name|]; [|discriminate].
  rewrite (bind_ret_l name) in H. cbv zeta in H.
  apply Nat.eqb_neq in Hi. rewrite Hi, (bind_ret_l cb) in H.
  unfold getitem in H.
  destruct (nth_error (all_images cb) i) as [target|] eqn:Et; [|discriminate].
  rewrite (bind_ret_l target) in H.
  apply bind_Ret_inv in H as (t1 & slice & t2 & Hb & H & _).
  apply bind_Ret_inv in H as (t3 & mm & t4 & _ & H & _).
  injection H as _ <-.
  assert (Ht : shape0 target = h /\ shape1 target = wd).
  { rewrite Forall_forall in Hall. eapply Hall, nth_error_In, Et. }
  destruct Ht as [Ht0 Ht1]. rewrite Ht0, Ht1 in Hb.
  apply broadcast_to_inv in Hb as (Hs0 & Hs1 & Hf0 & Hf1).
  exists d, name. repeat split; try assumption.
  eexists. split; [reflexivity|]. cbn [all_images]. split.
  - now rewrite setitem_length.
  - apply setitem_Forall; auto.
Qed.

Lemma read_loop_later (xs : list string) :
  forall (i : nat) (st : option cube) t st',
  i <> 0 -> bound st ->
  for_enumerate i xs (read_image w displaynames n_files) st = (t, Ret st') ->
  bound st' /\
  Forall fits (timages_of w xs (skipn i displaynames)) /\
  length (timages_of w xs (skipn i displaynames)) = length xs.
Proof.
  induction xs as [|x xs IH]; intros i st t st' Hi Hb H.
  - cbn in H. injection H as _ <-. repeat split; [exact Hb|constructor].
  - cbn [for_enumerate] in H.
    apply bind_Ret_inv in H as (t1 & st1 & t2 & H1 & H2 & _).
    destruct (read_image_later _ _ _ _ _ Hi Hb H1)
      as (d & name & Hd & Hname & Hfit & Hb1).
    destruct (IH (S i) st1 t2 st' ltac:(lia) Hb1 H2) as (Hb' & Hfits & Hlen).
    rewrite (skipn_nth_error _ _ _ Hname).
    unfold timages_of in *. cbn [combine flat_map]. rewrite Hd. cbn [app length].
    repeat split; [exact Hb'|now constructor|now rewrite Hlen].
Qed.

End CubeShape.

(** X12. When the loop over the files returns, every slice of [all_images]
    has the shape of the first image after rotation and cropping, there are
    [n_files] slices, and every image read had that shape up to dimensions of
    size one (which assignment broadcasts); an image of another shape does not
    get through the loop. *)
Theorem cube_has_first_shape (w : world) (cfile0 : string) (filenames : list string)
        (name0 : string) (displaynames : list string) (n_files : nat) t cb :
  read_images w (cfile0 :: filenames) (name0 :: displaynames) n_files = (t, Ret cb) ->
  exists d0,
    getdata w cfile0 = Some d0 /\
    let first := crop (rotate name0 d0) in
    length (all_images cb) = n_files /\
    Forall (fun img => shape0 img = shape0 first /\ shape1 img = shape1 first)
           (all_images cb) /\
    Forall (fun timage =>
              (shape0 timage = shape0 first \/ shape0 timage = 1) /\
              (shape1 timage = shape1 first \/ shape1 timage = 1))
           (timages_of w (cfile0 :: filenames) (name0 :: displaynames)).
Proof.
  intros H. unfold read_images in H.
  apply bind_Ret_inv in H as (t1 & st & t2 & Hloop & Hst & _).
  cbn [for_enumerate] in Hloop.
  apply bind_Ret_inv in Hloop as (t3 & st1 & t4 & H0 & Hrest & _).
  unfold read_image in H0.
  destruct (getdata w cfile0) as [d0|] eqn:Hd; [|discriminate].
  rewrite (bind_ret_l d0) in H0. cbn [getitem nth_error] in H0.
  rewrite (bind_ret_l name0) in H0. cbv zeta in H0. cbn [Nat.eqb] in H0.
  set (first := crop (rotate name0 d0)) in *.
  rewrite (bind_ret_l (np_empty_cube w (shape0 first) (shape1 first) n_files)) in H0.
  unfold getitem in H0.
  destruct (nth_error _ 0) as [target|] eqn:Et in H0; [|discriminate].
  rewrite (bind_ret_l target) in H0.
  apply bind_Ret_inv in H0 as (t5 & slice & t6 & Hb & H0 & _).
  apply bind_Ret_inv in H0 as (t7 & mm & t8 & _ & H0 & _).
  injection H0 as _ <-.
  assert (Hall : Forall (fun img => shape0 img = shape0 first /\
                                    shape1 img = shape1 first)
                        (all_images (np_empty_cube w (shape0 first) (shape1 first)
                                                   n_files))).
  { cbn [np_empty_cube all_images]. apply Forall_forall. intros img Hin.
    apply in_map_iff in Hin as (k & <- & _). now cbn. }
  assert (Ht : shape0 target = shape0 first /\ shape1 target = shape1 first).
  { rewrite Forall_forall in Hall. eapply Hall, nth_error_In, Et. }
  destruct Ht as [Ht0 Ht1]. rewrite Ht0, Ht1 in Hb.
  apply broadcast_to_inv in Hb as (Hs0 & Hs1 & _ & _).
  assert (Hb1 : bound n_files (shape0 first) (shape1 first)
                  (Some (mk_cube
                           (setitem (all_images
                                       (np_empty_cube w (shape0 first) (shape1 first)
                                                      n_files)) 0 slice) mm))).
  { eexists. split; [reflexivity|]. cbn [all_images]. split.
    - rewrite setitem_length. cbn [np_empty_cube all_images].
      now rewrite length_map, length_seq.
    - apply setitem_Forall; auto. }
  destruct (read_loop_later w (name0 :: displaynames) n_files
              (shape0 first) (shape1 first) filenames 1 _ t4 st
              ltac:(lia) Hb1 Hrest) as ((cb' & -> & Hlen & Hshape) & Hfits & _).
  cbn in Hst. injection Hst as _ <-.
  exists d0. split; [reflexivity|]. cbv zeta.
  repeat split; try assumption.
  unfold timages_of. cbn [combine flat_map]. rewrite Hd. cbn [app].
  constructor; [auto|exact Hfits].
Qed.

Lemma cube_has_first_shape_witness :
  exists d0,
    getdata Sample.three_of_seven (Sample.std_file "dartr") = Some d0 /\
    let first := crop (rotate "DART-ray" d0) in
    length (all_images
              (mk_cube
                 [Sample.img_ramp; Sample.img_mixed; Sample.img_ramp]
                 [(2, 3)%Q; (4, 6)%Q; (2, 3)%Q])) = 3 /\
    Forall (fun img => shape0 img = shape0 first /\ shape1 img = shape1 first)
           (all_images
              (mk_cube
                 [Sample.img_ramp; Sample.img_mixed; Sample.img_ramp]
                 [(2, 3)%Q; (4, 6)%Q; (2, 3)%Q])) /\
    Forall (fun timage =>
              (shape0 timage = shape0 first \/ shape0 timage = 1) /\
              (shape1 timage = shape1 first \/ shape1 timage = 1))
           (timages_of Sample.three_of_seven
              [Sample.std_file "dartr"; Sample.std_file "dirty";
               Sample.std_file "skirt"]
              ["DART-ray"; "DIRTY"; "SKIRT"]%string).
Proof.
  apply (cube_has_first_shape Sample.three_of_seven
           (Sample.std_file "dartr")
           [Sample.std_file "dirty"; Sample.std_file "skirt"]
           "DART-ray" ["DIRTY"; "SKIRT"]%string 3 []).
  reflexivity.
Defined.

(** Two files of different shapes: the second does not fit the cube. *)
Example two_shapes_run :
  plot_imagegrid Edge.two_shapes
    (fst (select_models Sample.default_args))
    (snd (select_models Sample.default_args))
    "000.53" "1e0" "090" false true
  = ([Subplots; Subplot (0, 2); Subplot (1, 1)], Raise Py.ValueError).
Proof. reflexivity. Qed.

(** ** Files that cannot be read *)

Lemma read_loop_reads (w : world) (displaynames : list string) (n_files : nat)
      (xs : list string) :
  forall i st t st',
  for_enumerate i xs (read_image w displaynames n_files) st = (t, Ret st') ->
  Forall (fun cfile => getdata w cfile <> None) xs.
Proof.
  induction xs as [|x xs IH]; intros i st t st' H; [constructor|].
  cbn [for_enumerate] in H.
  apply bind_Ret_inv in H as (t1 & st1 & t2 & H1 & H2 & _).
  constructor; [|eapply IH, H2].
  unfold read_image in H1. destruct (getdata w x); [discriminate|discriminate H1].
Qed.

(** X13. A file that exists but cannot be read makes the render fail: when
    every model has a label and the data of one surviving file cannot be
    loaded, the render does not complete (and so, by X3, writes nothing). *)
Theorem unreadable_file_fails (w : world) (modnames moddisplaynames : list string)
        (wave tau angle : string) (save_eps save_png : bool) (i : nat) (cfile : string) :
  length modnames <= length moddisplaynames ->
  nth_error (ifilenames_of modnames wave tau angle) i = Some cfile ->
  isfile w cfile = true ->
  getdata w cfile = None ->
  is_ret (snd (plot_imagegrid w modnames moddisplaynames wave tau angle
                              save_eps save_png)) = false.
Proof.
  intros Hlab Hi Hf Hd.
  assert (Hin : In i (existing w (ifilenames_of modnames wave tau angle)))
    by (apply existing_spec; eauto).
  assert (Hne : existing w (ifilenames_of modnames wave tau angle) <> [])
    by (intros E; rewrite E in Hin; destruct Hin).
  destruct (plot_imagegrid w modnames moddisplaynames wave tau angle
                           save_eps save_png) as [t [[] | s | e]] eqn:E;
    [exfalso|reflexivity|reflexivity].
  rewrite plot_imagegrid_unfold in E by assumption.
  apply bind_Ret_inv in E as (t1 & [] & t2 & _ & E & _).
  apply bind_Ret_inv in E as (t3 & ax & t4 & _ & E & _).
  apply bind_Ret_inv in E as (t5 & cb & t6 & Hread & _ & _).
  unfold read_images in Hread.
  apply bind_Ret_inv in Hread as (t7 & st & t8 & Hloop & _ & _).
  apply read_loop_reads in Hloop. rewrite Forall_forall in Hloop.
  apply (Hloop cfile); [|exact Hd].
  apply in_map_iff. exists i. split; [|exact Hin].
  now apply nth_error_nth.
Qed.

Lemma unreadable_file_fails_witness :
  is_ret (snd (plot_imagegrid Edge.unreadable
                 (fst (select_models Sample.default_args))
                 (snd (select_models Sample.default_args))
                 "000.53" "1e0" "090" false true)) = false.
Proof.
  apply (unreadable_file_fails Edge.unreadable
           (fst (select_models Sample.default_args))
           (snd (select_models Sample.default_args))
           "000.53" "1e0" "090" false true 2 (Sample.std_file "dirty"));
    reflexivity.
Defined.

(** ** File names *)

Lemma append_length (a b : string) :
  String.length (a +++ b) = String.length a + String.length b.
Proof. induction a as [|c a IH]; cbn; [reflexivity|now rewrite IH]. Qed.

Lemma append_inj_r (a b s : string) : a +++ s = b +++ s -> a = b.
Proof.
  revert b. induction a as [|c a IH]; intros [|c' b] H.
  - reflexivity.
  - apply (f_equal String.length) in H. rewrite !append_length in H.
    cbn in H. lia.
  - apply (f_equal String.length) in H. rewrite !append_length in H.
    cbn in H. lia.
  - cbn in H. injection H as -> H. f_equal. now apply IH.
Qed.

Lemma NoDup_map_injective {A B} (f : A -> B) (l : list A) :
  (forall x y, f x = f y -> x = y) -> NoDup l -> NoDup (map f l).
Proof.
  intros Hinj. induction 1 as [|x l Hx Hl IH]; cbn [map]; constructor; [|exact IH].
  intros Hin. apply in_map_iff in Hin as (y & Hy & Hyl).
  apply Hinj in Hy. now subst.
Qed.

(** X14. File names keep models apart: for any wavelength, optical depth and
    angle, model names that differ give file names that differ, so a list of
    distinct path prefixes is a list of distinct files. *)
Theorem ifilenames_distinct (modnames : list string) (wave tau angle : string) :
  NoDup modnames -> NoDup (ifilenames_of modnames wave tau angle).
Proof.
  intros H. unfold ifilenames_of. apply NoDup_map_injective; [|exact H].
  intros x y. apply append_inj_r.
Qed.

Lemma ifilenames_distinct_witness :
  NoDup (ifilenames_of ["crt/crt_slab_eff"; "dartr/dartr_slab_eff"]%string
                       "000.53" "1e0" "090").
Proof.
  apply (ifilenames_distinct ["crt/crt_slab_eff"; "dartr/dartr_slab_eff"]%string).
  repeat constructor; cbn; intuition discriminate.
Defined.

Lemma select_models_distinct (args : Args.t) :
  NoDup (fst (select_models args)) /\ NoDup (snd (select_models args)).
Proof.
  unfold select_models.
  destruct (Args.stau args); [|destruct (Args.nphot args);
   [|destruct (Args.mscat args); [|destruct (Args.econs args);
   [|destruct (Args.nz args); [|destruct (Args.wr args);
   [|destruct (Args.minfs args)]]]]]];
    cbn; split; repeat constructor; cbn; intuition discriminate.
Qed.

(** X15. In every model set of the main block, and for every combination,
    the models read pairwise different files and carry pairwise different
    labels: no file is loaded into two panels and no two panels share a
    title. *)
Theorem main_files_and_labels_distinct (args : Args.t) (wave tau angle : string) :
  NoDup (ifilenames_of (fst (select_models args)) wave tau angle) /\
  NoDup (snd (select_models args)).
Proof.
  destruct (select_models_distinct args) as [Hn Hl].
  split; [|exact Hl].
  unfold ifilenames_of. apply NoDup_map_injective; [|exact Hn].
  intros x y. apply append_inj_r.
Qed.

(** ** The limits of a completed render *)

Lemma ranges_of_app t1 t2 : ranges_of (t1 ++ t2) = ranges_of t1 ++ ranges_of t2.
Proof. apply flat_map_app. Qed.

Lemma show_images_ranges (ax : list axes) (imgs : list image)
      (displaynames : list string) (limits : option Q * option Q) (m : nat) :
  forall k t,
  for_each (seq k m)
    (fun i =>
       a <- getitem ax i ;;
       img <- getitem imgs i ;;
       emit (Imshow a img (fst limits) (snd limits)) ;;;
       name <- getitem displaynames i ;;
       emit (SetTitle a name) ;;;
       emit (HideAxis a))
  = (t, Ret tt) ->
  ranges_of t = repeat limits m.
Proof.
  induction m as [|m IH]; intros k t H.
  - cbn in H. injection H as <-. reflexivity.
  - cbn [seq for_each] in H.
    apply bind_Ret_inv in H as (t1 & [] & t2 & H1 & H2 & ->).
    rewrite ranges_of_app, (IH _ _ H2). cbn [repeat].
    change (limits :: repeat limits m) with ([limits] ++ repeat limits m). f_equal.
    unfold getitem in H1.
    destruct (nth_error ax k) as [a|] eqn:Ea; [|discriminate].
    rewrite (bind_ret_l a) in H1.
    destruct (nth_error imgs k) as [img|] eqn:Ei; [|discriminate].
    rewrite (bind_ret_l img), bind_emit in H1.
    destruct (nth_error displaynames k) as [name|] eqn:En; [|discriminate].
    rewrite (bind_ret_l name), bind_emit in H1. cbn in H1.
    injection H1 as <-. cbn. now destruct limits.
Qed.

(** A completed render, taken apart: the loop over the files returned, and
    every panel was drawn with the limits computed from its rows. *)
Lemma completed_render_ranges (w : world) modnames moddisplaynames wave tau angle
      save_eps save_png :
  let ifilenames := ifilenames_of modnames wave tau angle in
  let fileindxs := existing w ifilenames in
  let filenames := map (fun i => nth i ifilenames EmptyString) fileindxs in
  let displaynames := map (fun i => nth i moddisplaynames EmptyString) fileindxs in
  let run := plot_imagegrid w modnames moddisplaynames wave tau angle
                            save_eps save_png in
  length modnames <= length moddisplaynames ->
  snd run = Ret tt ->
  exists t cb,
    read_images w filenames displaynames (length filenames) = (t, Ret cb) /\
    ranges_of (fst run) = repeat (plot_minmax (minmax_vals cb)) (length fileindxs).
Proof.
  intros ifilenames fileindxs filenames displaynames run Hlab Hret.
  assert (Hne : fileindxs <> []).
  { intros E. subst run fileindxs. fold ifilenames in Hret.
    rewrite plot_imagegrid_no_files in Hret by (now apply existing_nil).
    discriminate. }
  subst run. rewrite plot_imagegrid_unfold in * by assumption.
  fold ifilenames fileindxs filenames displaynames in Hret |- *.
  match type of Hret with snd ?m = _ => destruct m as [tr o] eqn:E end.
  cbn [fst snd] in *. subst o.
  apply bind_Ret_inv in E as (t1 & [] & t2 & H1 & E & ->).
  injection H1 as <-.
  apply bind_Ret_inv in E as (t3 & ax & t4 & Hax & E & ->).
  apply bind_Ret_inv in E as (t5 & cb & t6 & Hread & E & ->).
  apply bind_Ret_inv in E as (t7 & [] & t8 & Hshow & E & ->).
  exists t5, cb. split; [exact Hread|].
  cbn [app ranges_of flat_map]. change (flat_map _ ?t) with (ranges_of t).
  rewrite !ranges_of_app.
  replace (ranges_of t3) with (@nil (option Q * option Q)).
  2:{ symmetry. apply flat_map_nil_Forall.
      change t3 with (fst (t3, @Ret (list (nat * nat)) ax)). rewrite <- Hax.
      now apply make_axes_trace. }
  replace (ranges_of t5) with (@nil (option Q * option Q)).
  2:{ symmetry. apply flat_map_nil_Forall.
      change t5 with (fst (t5, @Ret cube cb)). rewrite <- Hread.
      now apply read_images_trace. }
  replace (ranges_of t8) with (@nil (option Q * option Q)).
  2:{ symmetry. apply flat_map_nil_Forall.
      change t8 with (fst (t8, Ret tt)). rewrite <- E.
      repeat (apply Forall_bind; [now apply Forall_emit|]; intros _).
      apply Forall_bind; [now apply save_figure_trace|]. intros _.
      now apply Forall_emit. }
  rewrite app_nil_r. cbn [app].
  unfold show_images, range in Hshow.
  rewrite (show_images_ranges _ _ _ _ _ _ _ Hshow).
  unfold filenames. now rewrite length_map.
Qed.

(** X16. In a completed render every panel is drawn with one and the same
    pair of limits, and there is one panel per surviving file; when the fresh
    [minmax_vals] array holds no positive value in its first column, that pair
    is the median of the minimums and the median of the maximums over the
    images that have statistics. *)
Theorem completed_render_shared_range (w : world)
        (modnames moddisplaynames : list string)
        (wave tau angle : string) (save_eps save_png : bool) :
  let ifilenames := ifilenames_of modnames wave tau angle in
  let fileindxs := existing w ifilenames in
  let filenames := map (fun i => nth i ifilenames EmptyString) fileindxs in
  let displaynames := map (fun i => nth i moddisplaynames EmptyString) fileindxs in
  let run := plot_imagegrid w modnames moddisplaynames wave tau angle
                            save_eps save_png in
  length modnames <= length moddisplaynames ->
  snd run = Ret tt ->
  (exists limits, ranges_of (fst run) = repeat limits (length fileindxs)) /\
  ((forall k, (uninit_minmax w k 0 <= 0)%Q) ->
   ranges_of (fst run)
   = repeat (median_range (valid_minmax (timages_of w filenames displaynames)))
            (length fileindxs)).
Proof.
  intros ifilenames fileindxs filenames displaynames run Hlab Hret.
  destruct (completed_render_ranges w modnames moddisplaynames wave tau angle
              save_eps save_png Hlab Hret) as (t & cb & Hread & Hranges).
  fold ifilenames fileindxs filenames displaynames run in Hread, Hranges.
  split; [eexists; exact Hranges|].
  intros Hclean. rewrite Hranges. f_equal.
  exact (shared_range_clean_memory w displaynames (length filenames) filenames
           t cb Hclean eq_refl Hread).
Qed.

Lemma completed_render_shared_range_witness :
  let w := Sample.three_of_seven in
  let modnames := fst (select_models Sample.default_args) in
  let moddisplaynames := snd (select_models Sample.default_args) in
  let ifilenames := ifilenames_of modnames "000.53" "1e0" "090" in
  let fileindxs := existing w ifilenames in
  let filenames := map (fun i => nth i ifilenames EmptyString) fileindxs in
  let displaynames := map (fun i => nth i moddisplaynames EmptyString) fileindxs in
  let run := plot_imagegrid w modnames moddisplaynames "000.53" "1e0" "090"
                            false false in
  (exists limits, ranges_of (fst run) = repeat limits (length fileindxs)) /\
  ((forall k, (uninit_minmax w k 0 <= 0)%Q) ->
   ranges_of (fst run)
   = repeat (median_range (valid_minmax (timages_of w filenames displaynames)))
            (length fileindxs)).
Proof.
  apply (completed_render_shared_range Sample.three_of_seven
           (fst (select_models Sample.default_args))
           (snd (select_models Sample.default_args))
           "000.53" "1e0" "090" false false).
  - vm_compute. lia.
  - reflexivity.
Defined.

(** The three images of the sample have the rows (2, 3), (4, 6) and (2, 3);
    the medians are 2 and 3. *)
Example three_of_seven_range :
  ranges_of
    (fst (plot_imagegrid Sample.three_of_seven
            (fst (select_models Sample.default_args))
            (snd (select_models Sample.default_args))
            "000.53" "1e0" "090" false false))
  = repeat (Some 2%Q, Some 3%Q) 3.
Proof. reflexivity. Qed.

(** ** Panels never overlap *)

Lemma existing_NoDup (w : world) (ifilenames : list string) :
  NoDup (existing w ifilenames).
Proof. unfold existing. apply NoDup_filter, seq_NoDup. Qed.

Lemma render_subplots (w : world) modnames moddisplaynames wave tau angle
      save_eps save_png :
  length modnames <= length moddisplaynames ->
  length modnames <= 9 ->
  subplots_of (fst (plot_imagegrid w modnames moddisplaynames wave tau angle
                                   save_eps save_png))
  = map (fun i => (i / 3, i mod 3))
        (existing w (ifilenames_of modnames wave tau angle)).
Proof.
  intros Hlab Hnine.
  set (ifilenames := ifilenames_of modnames wave tau angle).
  destruct (existing w ifilenames) as [|i0 rest] eqn:Eex.
  - subst ifilenames. now rewrite plot_imagegrid_no_files by (now apply existing_nil).
  - assert (Hne : existing w ifilenames <> []) by (rewrite Eex; discriminate).
    assert (Hb : Forall (fun indx => indx < 9) (existing w ifilenames)).
    { apply existing_bound. unfold ifilenames, ifilenames_of.
      now rewrite length_map. }
    rewrite <- Eex. rewrite plot_imagegrid_unfold by assumption. fold ifilenames.
    set (fileindxs := existing w ifilenames) in *.
    set (filenames := map (fun i => nth i ifilenames EmptyString) fileindxs).
    assert (Hn : length filenames = length fileindxs)
      by (unfold filenames; apply length_map).
    replace (make_axes (length filenames) fileindxs)
      with (make_axes (length fileindxs) fileindxs) by (now rewrite Hn).
    rewrite bind_emit, (make_axes_cells _ Hb), bind_run. cbn [fst snd].
    cbn [subplots_of flat_map app]. change (flat_map _ ?t) with (subplots_of t).
    rewrite subplots_of_app, subplots_of_Subplot.
    match goal with |- _ ++ subplots_of ?t = _ =>
      replace (subplots_of t) with (@nil (nat * nat)); [now rewrite app_nil_r|]
    end.
    symmetry. apply flat_map_nil_Forall.
    apply Forall_bind; [now apply read_images_trace|]. intros cb.
    apply Forall_bind; [now apply show_images_trace|]. intros _.
    repeat (apply Forall_bind; [now apply Forall_emit|]; intros _).
    apply Forall_bind; [now apply save_figure_trace|]. intros _.
    now apply Forall_emit.
Qed.

(** X17. No two panels are created in the same grid cell: for a model set of
    at most nine members, each with a label, the cells of the panels of a
    render are pairwise different. *)
Theorem panels_do_not_overlap (w : world) (modnames moddisplaynames : list string)
        (wave tau angle : string) (save_eps save_png : bool) :
  length modnames <= length moddisplaynames ->
  length modnames <= 9 ->
  NoDup (subplots_of
           (fst (plot_imagegrid w modnames moddisplaynames wave tau angle
                                save_eps save_png))).
Proof.
  intros Hlab Hnine. rewrite render_subplots by assumption.
  apply NoDup_map_injective; [|apply existing_NoDup].
  intros i j H. injection H as Hd Hm. now apply cell_injective.
Qed.

Lemma panels_do_not_overlap_witness :
  NoDup (subplots_of
           (fst (plot_imagegrid Sample.three_of_seven
                   (fst (select_models Sample.default_args))
                   (snd (select_models Sample.default_args))
                   "000.53" "1e0" "090" false false))).
Proof.
  apply (panels_do_not_overlap Sample.three_of_seven); vm_compute; lia.
Defined.

(** ** The values and the files of a sweep *)

Lemma declared_spec (good : list string) (v : string) :
  declared good v = true <-> In v good /\ v <> "all"%string.
Proof.
  unfold declared. rewrite andb_true_iff, negb_true_iff, String.eqb_neq.
  split; intros [H1 H2]; (split; [|exact H2]).
  - apply existsb_exists in H1 as (x & Hx & E). apply String.eqb_eq in E. now subst.
  - apply existsb_exists. exists v. split; [exact H1|apply String.eqb_refl].
Qed.

Lemma expand_all_declared (good : list string) (choice : string) :
  forallb (fun c => forallb (declared good) (expand_all c good)) good = true ->
  In choice good ->
  Forall (fun v => In v good /\ v <> "all"%string) (expand_all choice good).
Proof.
  intros Hall Hin. rewrite forallb_forall in Hall.
  specialize (Hall choice Hin). rewrite forallb_forall in Hall.
  apply Forall_forall. intros v Hv. now apply declared_spec, Hall.
Qed.

(** X18. When the three arguments are among the declared choices (as the
    argument parser enforces), every combination a sweep renders is made of
    declared values, none of them the word "all": that word never reaches a
    file name. *)
Theorem sweep_values_declared (args : Args.t) :
  In (Args.angle args) good_angles ->
  In (Args.tau args) good_taus ->
  In (Args.wave args) good_waves ->
  Forall (fun '(angle, tau, wave) =>
            (In angle good_angles /\ angle <> "all"%string) /\
            (In tau good_taus /\ tau <> "all"%string) /\
            (In wave good_waves /\ wave <> "all"%string))
         (sweep_order args).
Proof.
  intros Ha Ht Hw.
  pose proof (expand_all_declared good_angles _ eq_refl Ha) as Fa.
  pose proof (expand_all_declared good_taus _ eq_refl Ht) as Ft.
  pose proof (expand_all_declared good_waves _ eq_refl Hw) as Fw.
  rewrite Forall_forall in Fa, Ft, Fw.
  apply Forall_forall. intros [[angle tau] wave] Hc. unfold sweep_order in Hc.
  apply in_flat_map in Hc as (a & Hain & Hc).
  apply in_flat_map in Hc as (t & Htin & Hc).
  apply in_map_iff in Hc as (v & E & Hvin). injection E as <- <- <-.
  auto.
Qed.

Lemma sweep_values_declared_witness :
  Forall (fun '(angle, tau, wave) =>
            (In angle good_angles /\ angle <> "all"%string) /\
            (In tau good_taus /\ tau <> "all"%string) /\
            (In wave good_waves /\ wave <> "all"%string))
         (sweep_order Edge.full_sweep).
Proof.
  apply (sweep_values_declared Edge.full_sweep); cbn;
    repeat (first [left; reflexivity | right]).
Defined.

Lemma nodupb_sound (l : list string) : nodupb l = true -> NoDup l.
Proof.
  induction l as [|x l IH]; intros H; [constructor|].
  cbn [nodupb] in H. apply andb_true_iff in H as [Hx Hl].
  constructor; [|now apply IH].
  intros Hin. apply negb_true_iff in Hx.
  assert (E : existsb (String.eqb x) l = true)
    by (apply existsb_exists; exists x; split; [exact Hin|apply String.eqb_refl]).
  congruence.
Qed.

Lemma written_files_outputs (t : list event) :
  written_files t = written_files (outputs_of t).
Proof.
  induction t as [|e t IH]; [reflexivity|].
  destruct e; cbn [written_files outputs_of flat_map filter is_output app];
    try exact IH.
  unfold written_files, outputs_of in IH. now rewrite IH.
Qed.

Lemma completed_main_outputs (w : world) (args : Args.t) :
  snd (main w args) = Ret tt ->
  outputs_of (fst (main w args)) = flat_map (outputs_for args) (sweep_order args).
Proof.
  rewrite main_sweep. intros H. apply for_each_Ret_all in H.
  rewrite (for_each_all_ret _ _ H). cbn [fst].
  unfold outputs_of. rewrite filter_flat_map. apply flat_map_ext_in.
  intros c Hc. apply render_outputs. rewrite forallb_forall in H. now apply H.
Qed.

Lemma sweep_files_distinct (args : Args.t) :
  In (Args.angle args) good_angles ->
  In (Args.tau args) good_taus ->
  In (Args.wave args) good_waves ->
  NoDup (written_files (flat_map (outputs_for args) (sweep_order args))).
Proof.
  destruct args as [wave tau angle econs mscat nphot stau nz wr minfs eps png].
  cbn [Args.angle Args.tau Args.wave]. intros Ha Ht Hw.
  unfold good_angles in Ha. unfold good_taus in Ht. unfold good_waves in Hw.
  cbn [In] in Ha, Ht, Hw.
  destruct Ha as [<-|[<-|[<-|[<-|[<-|[<-|[<-|[<-|[]]]]]]]]];
    destruct Ht as [<-|[<-|[<-|[<-|[<-|[]]]]]];
    destruct Hw as [<-|[<-|[<-|[<-|[<-|[]]]]]];
    destruct eps, png; apply nodupb_sound; vm_compute; reflexivity.
Qed.

(** X19. A sweep never overwrites its own output: when the three arguments
    are among the declared choices and the sweep completes, the files it has
    written all have different names. *)
Theorem sweep_never_overwrites (w : world) (args : Args.t) :
  In (Args.angle args) good_angles ->
  In (Args.tau args) good_taus ->
  In (Args.wave args) good_waves ->
  snd (main w args) = Ret tt ->
  NoDup (written_files (fst (main w args))).
Proof.
  intros Ha Ht Hw Hret.
  rewrite written_files_outputs, (completed_main_outputs _ _ Hret).
  now apply sweep_files_distinct.
Qed.

Lemma sweep_never_overwrites_witness :
  NoDup (written_files (fst (main Edge.all_present Sample.sweep_args))).
Proof.
  apply (sweep_never_overwrites Edge.all_present Sample.sweep_args).
  - cbn. repeat (first [left; reflexivity | right]).
  - cbn. repeat (first [left; reflexivity | right]).
  - cbn. repeat (first [left; reflexivity | right]).
  - vm_compute. reflexivity.
Defined.

(** ** The rows of minmax_vals, whatever the memory held *)

(** X20. When the loop over the files returns, row k of [minmax_vals] holds
    the statistics of image k if it has a pixel strictly between zero and its
    maximum, and otherwise still holds what the fresh array held there: the
    loop writes nothing into the row of an image without statistics. *)
Theorem minmax_rows_after_loop (w : world) (filenames displaynames : list string)
        t cb :
  read_images w filenames displaynames (length filenames) = (t, Ret cb) ->
  length (timages_of w filenames displaynames) = length filenames /\
  minmax_vals cb
  = map (fun k => row_of w k (nth_error (timages_of w filenames displaynames) k))
        (seq 0 (length filenames)).
Proof.
  intros H. unfold read_images in H.
  apply bind_Ret_inv in H as (t1 & st & t2 & Hloop & Hst & _).
  destruct filenames as [|x xs].
  { cbn in Hloop. injection Hloop as _ <-. discriminate. }
  destruct (read_loop_rows w displaynames (length (x :: xs)) (x :: xs)
              0 None [] t1 st eq_refl)
    as (cb' & -> & Hrows & Hlen); try assumption; try congruence.
  cbn in Hst. injection Hst as _ <-.
  cbn [skipn app] in Hrows, Hlen. split; [exact Hlen|exact Hrows].
Qed.

Lemma minmax_rows_after_loop_witness :
  length (timages_of Sample.stale_memory
            [Sample.std_file "dirty"; Sample.std_file "skirt"]
            ["DIRTY"; "SKIRT"]%string)
  = length [Sample.std_file "dirty"; Sample.std_file "skirt"] /\
  minmax_vals (mk_cube [Sample.img_ramp; Sample.img_flat] [(2, 3)%Q; (5, 5)%Q])
  = map (fun k => row_of Sample.stale_memory k
                    (nth_error (timages_of Sample.stale_memory
                                  [Sample.std_file "dirty"; Sample.std_file "skirt"]
                                  ["DIRTY"; "SKIRT"]%string) k))
        (seq 0 (length [Sample.std_file "dirty"; Sample.std_file "skirt"])).
Proof.
  apply (minmax_rows_after_loop Sample.stale_memory
           [Sample.std_file "dirty"; Sample.std_file "skirt"]
           ["DIRTY"; "SKIRT"]%string
           [Printed [Py.VInt 1; Py.VStr (Sample.std_file "skirt");
                     Py.VStr " has no positive values"]]).
  reflexivity.
Defined.
